(** * gbd.js: page discovery and sequential retrieval

    A shallow embedding of [src/gbd.js] (the Google Books preview
    downloader) and the properties of its pipeline: manifest fetch, URL
    resolution loop, job construction, sequential download and summary.

    The script talks to three collaborators: the page (DOM), the network
    ([fetch]) and the console ([Logger]).  The page and the network are
    inputs of the model (an [environment]); every call the script makes to
    the network, the timer, the console and the download anchor is recorded
    in a trace, in program order. *)

From Stdlib Require Import List String Ascii NArith ZArith Arith Bool Lia.
Import ListNotations.
Local Open Scope list_scope.
Local Open Scope string_scope.

(** ** JavaScript values

    The values the script handles come out of [JSON.parse] (null, booleans,
    numbers, strings, arrays, objects), plus [undefined] for a property that
    is not there.  The script only tests numbers for truthiness and uses them
    as [Map] keys; the model keeps the integer-valued ones.

    A string is the sequence of its code units, each an [ascii]: the model
    covers the strings whose code units are below 256 (U+0000 to U+00FF). *)

#[warnings="-register-all"]
Inductive value : Type :=
| VUndefined
| VNull
| VBool (b : bool)
| VNum (n : Z)
| VStr (s : string)
| VArr (elems : list value)
| VObj (props : list (string * value)).

(** [Boolean(v)], the test behind [if (v)], [!v] and [.filter(Boolean)]. *)
Definition truthy (v : value) : bool :=
  match v with
  | VUndefined | VNull => false
  | VBool b => b
  | VNum n => negb (n =? 0)%Z
  | VStr s => negb (s =? EmptyString)
  | VArr _ | VObj _ => true
  end.

(** Errors that the script can throw or that the platform raises under it. *)
Inductive error : Type :=
| ReferenceError_Logger
    (* Cannot access 'Logger' before initialization *)
| TypeError
    (* property read on null, call of a non-function, non-iterable in for-of,
       an object that cannot be converted to a string *)
| SyntaxError
    (* response.json() on a body that is not JSON *)
| NetworkError
    (* fetch() or response.blob() rejected *)
| Error_manifest_http (status : Z)
    (* Failed to fetch page manifest (HTTP status) *)
| Error_manifest_parse
    (* Could not parse the list of page IDs from the API response. *)
| Error_batch_http (pid : value) (status : Z)
    (* Failed to fetch page batch for PID pid (HTTP status) *)
| Error_batch_invalid (pid : value)
    (* Invalid API response for PID pid. *)
| Error_image_http (status : Z).
    (* Failed to fetch image data (HTTP status) *)

Inductive result (A : Type) : Type :=
| Ok (a : A)
| Throw (e : error).
Arguments Ok {A} a.
Arguments Throw {A} e.

Definition is_throw {A} (r : result A) : bool :=
  match r with Ok _ => false | Throw _ => true end.

(** [v.k] for the property names the script reads ([page], [pid], [src]):
    a [TypeError] on [null] and [undefined], the own property of an object,
    [undefined] on every other value (arrays, strings, numbers and booleans
    have no property of these names). *)
Fixpoint lookup_prop (props : list (string * value)) (k : string) : value :=
  match props with
  | [] => VUndefined
  | (k', v) :: rest => if k' =? k then v else lookup_prop rest k
  end.

Definition get_prop (v : value) (k : string) : result value :=
  match v with
  | VUndefined | VNull => Throw TypeError
  | VObj props => Ok (lookup_prop props k)
  | _ => Ok VUndefined
  end.

(** [v?.k] *)
Definition get_prop_opt (v : value) (k : string) : value :=
  match v with
  | VObj props => lookup_prop props k
  | _ => VUndefined
  end.

(** [`${v}`] succeeds.  The conversion of an object calls its [toString]:
    the one of [Object.prototype] unless the object has a property of that
    name of its own, which, coming from JSON, is not a function; then
    [valueOf] gives no primitive either and the conversion throws a
    [TypeError].  An array joins the conversions of its elements, [null]
    giving the empty string. *)
Fixpoint stringifiable (v : value) : bool :=
  match v with
  | VArr elems => forallb stringifiable elems
  | VObj props => negb (existsb (fun kv => fst kv =? "toString") props)
  | _ => true
  end.

(** ** [Map]

    A JavaScript [Map] keeps its entries in insertion order and compares keys
    with SameValueZero.  Objects and arrays are compared by identity: every
    object the script uses as a key comes from a different place of a parsed
    response, so two of them are never the same key. *)

Definition key_eqb (a b : value) : bool :=
  match a, b with
  | VUndefined, VUndefined => true
  | VNull, VNull => true
  | VBool x, VBool y => Bool.eqb x y
  | VNum x, VNum y => (x =? y)%Z
  | VStr x, VStr y => (x =? y)
  | _, _ => false
  end.

Definition Map := list (value * value).

Definition Map_new : Map := [].

Fixpoint Map_has (m : Map) (k : value) : bool :=
  match m with
  | [] => false
  | (k', _) :: rest => if key_eqb k' k then true else Map_has rest k
  end.

Fixpoint Map_get (m : Map) (k : value) : value :=
  match m with
  | [] => VUndefined
  | (k', v) :: rest => if key_eqb k' k then v else Map_get rest k
  end.

(** [m.set(k, v)]: an existing key keeps its place and takes the new value,
    a new key goes to the end. *)
Fixpoint Map_set (m : Map) (k v : value) : Map :=
  match m with
  | [] => [(k, v)]
  | (k', v') :: rest =>
      if key_eqb k' k then (k', v) :: rest else (k', v') :: Map_set rest k v
  end.

(** [batchMap.forEach((url, pid) => signedUrlMap.set(pid, url))]
    (gbd.js line 114). *)
Definition merge_batch (signedUrlMap batchMap : Map) : Map :=
  fold_left (fun m entry => Map_set m (fst entry) (snd entry))
            batchMap signedUrlMap.

(** ** Numbers as text

    [String(n)] for a non-negative integer, [padStart] and the length of a
    string, as used for the page number of a file name. *)

Definition digit_char (d : nat) : ascii := ascii_of_nat (48 + d).

Fixpoint digits_from (fuel n : nat) (acc : string) : string :=
  match fuel with
  | O => acc
  | S fuel' =>
      let acc' := String (digit_char (n mod 10)) acc in
      if (n <? 10)%nat then acc' else digits_from fuel' (n / 10) acc'
  end.

Definition String_of_nat (n : nat) : string :=
  digits_from (S n) n EmptyString.

Fixpoint repeat_char (c : ascii) (n : nat) : string :=
  match n with
  | O => EmptyString
  | S n' => String c (repeat_char c n')
  end.

(** [s.padStart(targetLength, c)] with a one-character pad string. *)
Definition padStart (s : string) (targetLength : nat) (c : ascii) : string :=
  if (targetLength <=? String.length s)%nat then s
  else repeat_char c (targetLength - String.length s) ++ s.

Definition String_of_Z (z : Z) : string :=
  if (z <? 0)%Z then "-" ++ String_of_nat (Z.to_nat (- z))
  else String_of_nat (Z.to_nat z).

(** ** The world around the script *)

(** What [fetch] is asked for.  The three URLs of the script are determined
    by these parameters:
    [`/books?id=${BOOK_ID}&jscmd=click3&pg=PP1`],
    [`/books?id=${BOOK_ID}&jscmd=click3&pg=${pid}`] and [job.url]. *)
Inductive request : Type :=
| ManifestUrl (BOOK_ID : string)
| BatchUrl (BOOK_ID : string) (pid : value)
| ImageUrl (url : value).

(** A [Response]: [json] is what [response.json()] resolves to ([None] when
    it rejects), [blob] tells whether [response.blob()] resolves. *)
Record response : Type := {
  ok : bool;
  status : Z;
  json : option value;
  blob : bool
}.

(** The page the script is pasted into and the network behind it.
    [network n rq] is the outcome of the [n]-th [fetch] of the run when it
    asks for [rq]; [None] is a rejected [fetch]. *)
Record environment : Type := {
  title_innerText : option string;
      (* document.querySelector('h1.gb-volume-title'), its innerText *)
  location_id : option string;
      (* new URLSearchParams(window.location.search).get('id') *)
  network : nat -> request -> option response
}.

Record job : Type := {
  url : value;
  filename : string
}.

Inductive event : Type :=
| Console_log (message styles : string)
| Console_error (message : string) (e : option error)
| Console_group (name : string)
| Console_groupEnd
| Fetch (rq : request)
| SetTimeout (ms : Z)
| AnchorClick (download : string).
    (* a.download = filename; a.click() *)

(** The state of a run: the variable [downloadJobs] of [main], the number
    of [fetch] calls made so far and everything done so far. *)
Record state : Type := {
  downloadJobs : list job;
  fetches : nat;
  trace : list event
}.

Definition initial_state : state :=
  {| downloadJobs := []; fetches := 0; trace := [] |}.

(** ** A state and exception monad for the [async] functions *)

Definition M (A : Type) : Type := state -> result A * state.

Definition ret {A} (a : A) : M A := fun s => (Ok a, s).

Definition throw {A} (e : error) : M A := fun s => (Throw e, s).

Definition bind {A B} (c : M A) (k : A -> M B) : M B :=
  fun s =>
    match c s with
    | (Ok a, s') => k a s'
    | (Throw e, s') => (Throw e, s')
    end.

Definition try_catch {A} (body : M A) (handler : error -> M A) : M A :=
  fun s =>
    match body s with
    | (Ok a, s') => (Ok a, s')
    | (Throw e, s') => handler e s'
    end.

Definition lift {A} (r : result A) : M A := fun s => (r, s).

Notation "x <- c1 ;; c2" := (bind c1 (fun x => c2))
  (at level 61, c1 at next level, right associativity).
Notation "c1 ;; c2" := (bind c1 (fun _ => c2))
  (at level 61, right associativity).

Definition add_event (s : state) (e : event) : state :=
  {| downloadJobs := downloadJobs s;
     fetches := fetches s;
     trace := (trace s ++ [e])%list |}.

(** The state after one more [fetch]. *)
Definition after_fetch (s : state) (rq : request) : state :=
  {| downloadJobs := downloadJobs s;
     fetches := S (fetches s);
     trace := (trace s ++ [Fetch rq])%list |}.

Definition emit (e : event) : M unit := fun s => (Ok tt, add_event s e).

Definition set_downloadJobs (jobs : list job) : M unit :=
  fun s => (Ok tt, {| downloadJobs := jobs;
                      fetches := fetches s;
                      trace := trace s |}).

Definition get_downloadJobs : M (list job) :=
  fun s => (Ok (downloadJobs s), s).

(** [await fetch(rq)] *)
Definition fetch (env : environment) (rq : request) : M response :=
  fun s =>
    match network env (fetches s) rq with
    | Some r => (Ok r, after_fetch s rq)
    | None => (Throw NetworkError, after_fetch s rq)
    end.

(** [await response.json()] *)
Definition response_json (r : response) : M value :=
  match json r with
  | Some data => ret data
  | None => throw SyntaxError
  end.

(** [await response.blob()] *)
Definition response_blob (r : response) : M unit :=
  if blob r then ret tt else throw NetworkError.

(** [await new Promise(resolve => setTimeout(resolve, ms))] *)
Definition delay (ms : Z) : M unit := emit (SetTimeout ms).

(** ** 1. Configuration and setup *)

Module Logger.
Definition _log (message styles : string) : M unit :=
  emit (Console_log message styles).
Definition info (message : string) : M unit :=
  _log ("%cINFO: " ++ message) "color: #03A9F4;".
Definition success (message : string) : M unit :=
  _log ("%cSUCCESS: " ++ message) "color: #4CAF50; font-weight: bold;".
Definition warn (message : string) : M unit :=
  _log ("%cWARN: " ++ message) "color: #FFC107;".
Definition error (message : string) (e : option error) : M unit :=
  emit (Console_error ("ERROR: " ++ message) e).
Definition group (name : string) : M unit := emit (Console_group name).
Definition groupEnd : M unit := emit Console_groupEnd.
End Logger.

(** A [const] binding is in its temporal dead zone until its declaration
    has been evaluated; reading it before throws a [ReferenceError]. *)
Inductive binding : Type := Uninitialized | Initialized.

Definition Logger_warn_via (Logger : binding) (message : string) : M unit :=
  match Logger with
  | Uninitialized => throw ReferenceError_Logger
  | Initialized => Logger.warn message
  end.

(** What [\s] matches, among the code units below 256: tab, line feed,
    vertical tab, form feed, carriage return, space and the no-break space
    U+00A0.  (The other characters [\s] matches are U+1680, U+2000 to
    U+200A, U+2028, U+2029, U+202F, U+205F, U+3000 and U+FEFF.) *)
Definition is_space (c : ascii) : bool :=
  let n := nat_of_ascii c in
  (((9 <=? n) && (n <=? 13)) || (n =? 32) || (n =? 160))%nat.

(** [.replace(/\s+/g, '-')] *)
Fixpoint replace_spaces (in_run : bool) (s : string) : string :=
  match s with
  | EmptyString => EmptyString
  | String c rest =>
      if is_space c then
        if in_run then replace_spaces true rest
        else String "-" (replace_spaces true rest)
      else String c (replace_spaces false rest)
  end.

(** The characters of the second pattern of [getFilenamePrefix]: backslash,
    slash, colon, star, question mark, double quote, less-than, greater-than
    and bar. *)
Definition is_invalid_char (c : ascii) : bool :=
  existsb (Nat.eqb (nat_of_ascii c)) [92; 47; 58; 42; 63; 34; 60; 62; 124].

(** The second [.replace], which removes these characters. *)
Fixpoint remove_invalid (s : string) : string :=
  match s with
  | EmptyString => EmptyString
  | String c rest =>
      if is_invalid_char c then remove_invalid rest
      else String c (remove_invalid rest)
  end.

(** [getFilenamePrefix] (lines 11-21), called where the binding [Logger]
    is in the given state. *)
Definition getFilenamePrefix (env : environment) (Logger : binding)
  : M string :=
  match title_innerText env with
  | None =>
      Logger_warn_via Logger
        "Could not find book title element. Using default 'Book' prefix." ;;
      ret "Book"
  | Some innerText => ret (remove_invalid (replace_spaces false innerText))
  end.

Record config : Type := {
  FILENAME_PREFIX : string;
  API_REQUEST_DELAY_MS : Z;
  DOWNLOAD_DELAY_MS : Z;
  BOOK_ID : option string
}.

(** [`${CONFIG.BOOK_ID}`] *)
Definition BOOK_ID_text (CONFIG : config) : string :=
  match BOOK_ID CONFIG with
  | Some id => id
  | None => "null"
  end.

(** ** 2. Service modules *)

(** [arr.map(f)] for a callback that may throw: elements in order, the first
    exception ends the call. *)
Fixpoint array_map (f : value -> result value) (elems : list value)
  : result (list value) :=
  match elems with
  | [] => Ok []
  | p :: rest =>
      match f p with
      | Throw e => Throw e
      | Ok v =>
          match array_map f rest with
          | Throw e => Throw e
          | Ok vs => Ok (v :: vs)
          end
      end
  end.

(** [data?.page?.map(p => p.pid)] (line 50): [None] is [undefined]. *)
Definition manifest_pids (data : value) : result (option (list value)) :=
  match get_prop_opt data "page" with
  | VUndefined | VNull => Ok None
  | VArr elems =>
      match array_map (fun p => get_prop p "pid") elems with
      | Ok pids => Ok (Some pids)
      | Throw e => Throw e
      end
  | _ => Throw TypeError          (* data.page.map is not a function *)
  end.

(** What [for (const page of pageData)] iterates over: the elements of an
    array, the characters of a string; any other value is not iterable. *)
Definition iterate (pageData : value) : result (list value) :=
  match pageData with
  | VArr elems => Ok elems
  | VStr s =>
      Ok (map (fun c => VStr (String c EmptyString)) (list_ascii_of_string s))
  | _ => Throw TypeError
  end.

(** The body of the loop of lines 62-64, over the remaining pages. *)
Fixpoint batch_loop (pages : list value) (urlMap : Map) : result Map :=
  match pages with
  | [] => Ok urlMap
  | page :: rest =>
      match get_prop page "src" with
      | Throw e => Throw e
      | Ok src =>
          if truthy src then
            match get_prop page "pid" with
            | Throw e => Throw e
            | Ok pid =>
                if truthy pid then batch_loop rest (Map_set urlMap pid src)
                else batch_loop rest urlMap
            end
          else batch_loop rest urlMap
      end
  end.

Module ApiService.

(** Lines 45-53. *)
Definition getPageManifest (env : environment) (CONFIG : config)
  : M (list value) :=
  response <- fetch env (ManifestUrl (BOOK_ID_text CONFIG)) ;;
  if negb (ok response) then throw (Error_manifest_http (status response))
  else
    data <- response_json response ;;
    pids <- lift (manifest_pids data) ;;
    match pids with
    | None => throw Error_manifest_parse
    | Some [] => throw Error_manifest_parse
    | Some pids => ret pids
    end.

(** Lines 54-66.  The URL of line 55 is built, with [`${pid}`], before
    [fetch] is called. *)
Definition getPageBatch (env : environment) (CONFIG : config) (pid : value)
  : M Map :=
  if negb (stringifiable pid) then throw TypeError
  else
    response <- fetch env (BatchUrl (BOOK_ID_text CONFIG) pid) ;;
    if negb (ok response) then throw (Error_batch_http pid (status response))
    else
      data <- response_json response ;;
      let pageData := get_prop_opt data "page" in
      if negb (truthy pageData) then throw (Error_batch_invalid pid)
      else
        pages <- lift (iterate pageData) ;;
        lift (batch_loop pages Map_new).

End ApiService.

Module DownloaderService.

(** Lines 70-83.  The anchor element that is created, clicked and removed
    is the one event [AnchorClick]. *)
Definition downloadFile (env : environment) (j : job) : M unit :=
  response <- fetch env (ImageUrl (url j)) ;;
  if negb (ok response) then throw (Error_image_http (status response))
  else
    response_blob response ;;
    emit (AnchorClick (filename j)).

End DownloaderService.

(** ** 3. Main orchestrator *)

(** The loop of lines 109-116, from index [i] over the identifiers that are
    left; [total] is [allPids.length]. *)
Fixpoint resolve_loop (env : environment) (CONFIG : config) (total i : nat)
    (pids : list value) (signedUrlMap : Map) : M Map :=
  match pids with
  | [] => ret signedUrlMap
  | pid :: rest =>
      if Map_has signedUrlMap pid then
        resolve_loop env CONFIG total (S i) rest signedUrlMap
      else
        Logger.info ("Fetching data for page " ++ String_of_nat (i + 1)
                     ++ "/" ++ String_of_nat total ++ "...") ;;
        batchMap <- ApiService.getPageBatch env CONFIG pid ;;
        let signedUrlMap := merge_batch signedUrlMap batchMap in
        delay (API_REQUEST_DELAY_MS CONFIG) ;;
        resolve_loop env CONFIG total (S i) rest signedUrlMap
  end.

(** [arr.map((x, i) => f(x, i))] from index [i]. *)
Fixpoint mapi_from {A B} (f : A -> nat -> B) (i : nat) (l : list A) : list B :=
  match l with
  | [] => []
  | x :: rest => f x i :: mapi_from f (S i) rest
  end.

(** [.filter(Boolean)] on an array of jobs and [null]s: an object is truthy. *)
Fixpoint filter_Boolean {A} (l : list (option A)) : list A :=
  match l with
  | [] => []
  | Some x :: rest => x :: filter_Boolean rest
  | None :: rest => filter_Boolean rest
  end.

(** Lines 119-127. *)
Definition build_downloadJobs (CONFIG : config) (allPids : list value)
    (signedUrlMap : Map) : list job :=
  let padding := String.length (String_of_nat (List.length allPids)) in
  filter_Boolean
    (mapi_from
       (fun pid i =>
          let url := Map_get signedUrlMap pid in
          if negb (truthy url) then None
          else
            let pageNumber := padStart (String_of_nat (i + 1)) padding "0" in
            Some {| url := url;
                    filename := FILENAME_PREFIX CONFIG ++ "-" ++ pageNumber
                                ++ ".png" |})
       0 allPids).

(** The loop of lines 136-146 from index [i]; [total] is
    [downloadJobs.length]. *)
Fixpoint download_loop (env : environment) (CONFIG : config) (total i : nat)
    (jobs : list job) (failedDownloads : list string) : M (list string) :=
  match jobs with
  | [] => ret failedDownloads
  | j :: rest =>
      Logger.info ("Downloading " ++ String_of_nat (i + 1) ++ "/"
                   ++ String_of_nat total ++ ": " ++ filename j) ;;
      failedDownloads <-
        try_catch
          (DownloaderService.downloadFile env j ;; ret failedDownloads)
          (fun e =>
             Logger.error ("Failed to download " ++ filename j) (Some e) ;;
             ret (failedDownloads ++ [filename j])%list) ;;
      delay (DOWNLOAD_DELAY_MS CONFIG) ;;
      download_loop env CONFIG total (S i) rest failedDownloads
  end.

(** [failedDownloads.forEach(filename => Logger.warn(`  - ${filename}`))] *)
Fixpoint warn_each (failedDownloads : list string) : M unit :=
  match failedDownloads with
  | [] => ret tt
  | f :: rest => Logger.warn ("  - " ++ f) ;; warn_each rest
  end.

(** Lines 149-155. *)
Definition summary (jobs : list job) (failedDownloads : list string)
  : M unit :=
  Logger.group "Summary" ;;
  Logger.success
    ("Process complete. Successfully downloaded "
     ++ String_of_Z (Z.of_nat (List.length jobs)
                     - Z.of_nat (List.length failedDownloads))
     ++ " of " ++ String_of_nat (List.length jobs) ++ " files.") ;;
  (if (0 <? List.length failedDownloads)%nat then
     Logger.warn ("The following "
                  ++ String_of_nat (List.length failedDownloads)
                  ++ " files failed:") ;;
     warn_each failedDownloads
   else ret tt) ;;
  Logger.groupEnd.

(** STEP 1, lines 105-117: the manifest and the URL mapping. *)
Definition step1 (env : environment) (CONFIG : config)
  : M (list value * Map) :=
  Logger.group "STEP 1: Fetching Page Links" ;;
  allPids <- ApiService.getPageManifest env CONFIG ;;
  Logger.info ("Found a manifest for " ++ String_of_nat (List.length allPids)
               ++ " pages.") ;;
  signedUrlMap <-
    resolve_loop env CONFIG (List.length allPids) 0 allPids Map_new ;;
  Logger.groupEnd ;;
  ret (allPids, signedUrlMap).

(** STEP 2 and the summary, lines 119-155. *)
Definition step2 (env : environment) (CONFIG : config)
    (allPids : list value) (signedUrlMap : Map) : M unit :=
  set_downloadJobs (build_downloadJobs CONFIG allPids signedUrlMap) ;;
  jobs <- get_downloadJobs ;;
  (if negb (List.length jobs =? List.length allPids)%nat then
     Logger.warn ("Could only resolve URLs for "
                  ++ String_of_nat (List.length jobs) ++ " of "
                  ++ String_of_nat (List.length allPids) ++ " pages.")
   else ret tt) ;;
  Logger.group "STEP 2: Downloading Files" ;;
  Logger.warn "Your browser will now ask for permission to download multiple files. YOU MUST CLICK 'ALLOW'." ;;
  failedDownloads <- download_loop env CONFIG (List.length jobs) 0 jobs [] ;;
  Logger.groupEnd ;;
  summary jobs failedDownloads.

Definition dquote : string := String (ascii_of_nat 34) EmptyString.

Definition BOOK_ID_truthy (CONFIG : config) : bool :=
  match BOOK_ID CONFIG with
  | Some id => negb (id =? EmptyString)
  | None => false
  end.

(** [main], lines 90-159. *)
Definition main (env : environment) (CONFIG : config) : M unit :=
  Logger.group "Google Books Downloader Initializing..." ;;
  Logger.info "Script Version: 2.1.0" ;;
  Logger.info ("Book ID: " ++ BOOK_ID_text CONFIG) ;;
  Logger.info ("Filename Prefix: " ++ dquote ++ FILENAME_PREFIX CONFIG
               ++ dquote) ;;
  if negb (BOOK_ID_truthy CONFIG) then
    Logger.error "Could not find Book ID in the URL. Please navigate to a book page." None ;;
    Logger.groupEnd
  else
    Logger.groupEnd ;;
    set_downloadJobs [] ;;
    try_catch
      (r <- step1 env CONFIG ;;
       step2 env CONFIG (fst r) (snd r))
      (fun e =>
         Logger.error "A critical error occurred and the script had to stop."
                      (Some e)).

(** The script, top to bottom: [CONFIG] is built (lines 23-28) before the
    declaration of [Logger] (line 30) is evaluated, then [main()] runs. *)
Definition script (env : environment) : M unit :=
  prefix <- getFilenamePrefix env Uninitialized ;;
  let CONFIG := {| FILENAME_PREFIX := prefix;
                   API_REQUEST_DELAY_MS := 50;
                   DOWNLOAD_DELAY_MS := 200;
                   BOOK_ID := location_id env |} in
  main env CONFIG.

(** ** Observations used in the statements *)

(** A [Map] as the script builds it: no key occurs twice. *)
Fixpoint Map_wf (m : Map) : Prop :=
  match m with
  | [] => True
  | (k, _) :: rest => Map_has rest k = false /\ Map_wf rest
  end.

(** An object without its property [f]. *)
Fixpoint remove_prop (f : string) (props : list (string * value))
  : list (string * value) :=
  match props with
  | [] => []
  | (k, v) :: rest =>
      if k =? f then remove_prop f rest else (k, v) :: remove_prop f rest
  end.

(** The page list of a parsed response, when there is one. *)
Definition page_list (data : value) : option (list value) :=
  match get_prop_opt data "page" with
  | VArr elems => Some elems
  | _ => None
  end.

Definition is_nullish (v : value) : bool :=
  match v with
  | VUndefined | VNull => true
  | _ => false
  end.

(** The identifiers the batch endpoint was queried for, in order. *)
Fixpoint batch_queries (t : list event) : list value :=
  match t with
  | [] => []
  | Fetch (BatchUrl _ pid) :: rest => pid :: batch_queries rest
  | _ :: rest => batch_queries rest
  end.

(** The URLs retrieval was attempted for, in order. *)
Fixpoint image_fetches (t : list event) : list value :=
  match t with
  | [] => []
  | Fetch (ImageUrl u) :: rest => u :: image_fetches rest
  | _ :: rest => image_fetches rest
  end.

(** The files handed to the browser for saving, in order. *)
Fixpoint saved_files (t : list event) : list string :=
  match t with
  | [] => []
  | AnchorClick f :: rest => f :: saved_files rest
  | _ :: rest => saved_files rest
  end.

Definition success_styles : string := "color: #4CAF50; font-weight: bold;".

(** Retrieval attempts and saved files. *)
Definition is_retrieval_event (e : event) : bool :=
  match e with
  | Fetch (ImageUrl _) => true
  | AnchorClick _ => true
  | _ => false
  end.

(** What the summary of lines 149-155 prints first: its group and the
    [Logger.success] line. *)
Definition is_summary_event (e : event) : bool :=
  match e with
  | Console_group name => name =? "Summary"
  | Console_log _ styles => styles =? success_styles
  | _ => false
  end.


(** ** Concrete responses *)

(** A page descriptor [{pid, src}], without [src] when there is none. *)
Definition page_entry (pid : string) (src : option string) : value :=
  VObj (("pid", VStr pid)
        :: match src with
           | Some u => [("src", VStr u)]
           | None => []
           end).

Definition ok_response (data : value) : response :=
  {| ok := true; status := 200; json := Some data; blob := true |}.

Definition page_response (pages : list value) : response :=
  ok_response (VObj [("page", VArr pages)]).

Definition http_error (code : Z) : response :=
  {| ok := false; status := code; json := None; blob := false |}.

Definition CONFIG_X : config :=
  {| FILENAME_PREFIX := "X";
     API_REQUEST_DELAY_MS := 50;
     DOWNLOAD_DELAY_MS := 200;
     BOOK_ID := Some "abc123" |}.

(** A provider whose answer for [p2] also carries [p1], with another URL. *)
Definition network_refresh (n : nat) (rq : request) : option response :=
  match rq with
  | ManifestUrl _ =>
      Some (page_response [page_entry "p1" None; page_entry "p2" None])
  | BatchUrl _ (VStr "p1") =>
      Some (page_response [page_entry "p1" (Some "u1")])
  | BatchUrl _ _ =>
      Some (page_response [page_entry "p1" (Some "u1b");
                           page_entry "p2" (Some "u2")])
  | ImageUrl _ => Some (ok_response VNull)
  end.

Definition env_refresh : environment :=
  {| title_innerText := Some "X";
     location_id := Some "abc123";
     network := network_refresh |}.

(** A batch entry that carries both fields with truthy values. *)
Definition complete_entry (page : value) : bool :=
  truthy (get_prop_opt page "src") && truthy (get_prop_opt page "pid").

(** A provider that answers every request with the page list [[null]]. *)
Definition env_null_entry : environment :=
  {| title_innerText := Some "X";
     location_id := Some "abc123";
     network := fun _ _ => Some (page_response [VNull]) |}.

(** A provider that answers every request with the three pages of a small
    document, the second without a source URL. *)
Definition env_three_pages : environment :=
  {| title_innerText := Some "X";
     location_id := Some "abc123";
     network := fun _ _ =>
       Some (page_response [page_entry "p1" (Some "u1");
                            page_entry "p2" None;
                            page_entry "p3" (Some "u3")]) |}.

(** ** Retrieval outcomes *)

(** The job [j], fetched as the [n]-th request of the run, fails: the
    request is rejected, or the status is not OK, or the body cannot be
    read. *)
Definition job_fails (env : environment) (n : nat) (j : job) : bool :=
  match network env n (ImageUrl (url j)) with
  | None => true
  | Some resp => negb (ok resp) || negb (blob resp)
  end.

(** The file names of the failing jobs and of the others, in job order, when
    the first job is fetched as the [n]-th request. *)
Fixpoint failures (env : environment) (n : nat) (jobs : list job)
  : list string :=
  match jobs with
  | [] => []
  | j :: rest =>
      if job_fails env n j then filename j :: failures env (S n) rest
      else failures env (S n) rest
  end.

Fixpoint successes (env : environment) (n : nat) (jobs : list job)
  : list string :=
  match jobs with
  | [] => []
  | j :: rest =>
      if job_fails env n j then successes env (S n) rest
      else filename j :: successes env (S n) rest
  end.

(** Neither a retrieval nor a line of the summary. *)
Definition is_discovery_event (e : event) : bool :=
  negb (is_retrieval_event e) && negb (is_summary_event e).

(** The state in which the [try] block of [main] is entered (line 104). *)
Definition try_entry (CONFIG : config) (s : state) : state :=
  {| downloadJobs := [];
     fetches := fetches s;
     trace := (trace s
               ++ [Console_group "Google Books Downloader Initializing...";
                   Console_log "%cINFO: Script Version: 2.1.0"
                               "color: #03A9F4;";
                   Console_log ("%cINFO: Book ID: " ++ BOOK_ID_text CONFIG)
                               "color: #03A9F4;";
                   Console_log ("%cINFO: Filename Prefix: " ++ dquote
                                ++ FILENAME_PREFIX CONFIG ++ dquote)
                               "color: #03A9F4;";
                   Console_groupEnd])%list |}.

(** A provider whose batch answers list the queried page without a source
    URL, as for a page outside the preview. *)
Definition env_no_src : environment :=
  {| title_innerText := Some "X";
     location_id := Some "abc123";
     network := fun _ rq =>
       match rq with
       | BatchUrl _ pid => Some (page_response [VObj [("pid", pid)]])
       | _ => Some (page_response [page_entry "p" None; page_entry "p" None])
       end |}.

(** Scenario A: the answer for [p1] also resolves [p2]. *)
Definition network_A (n : nat) (rq : request) : option response :=
  match rq with
  | ManifestUrl _ =>
      Some (page_response [page_entry "p1" None; page_entry "p2" None;
                           page_entry "p3" None])
  | BatchUrl _ (VStr "p1") =>
      Some (page_response [page_entry "p1" (Some "u1");
                           page_entry "p2" (Some "u2")])
  | BatchUrl _ _ => Some (page_response [page_entry "p3" (Some "u3")])
  | ImageUrl (VStr "u2") => Some (http_error 403)
  | ImageUrl _ => Some (ok_response VNull)
  end.

Definition env_A : environment :=
  {| title_innerText := Some "X";
     location_id := Some "abc123";
     network := network_A |}.

(** Scenario C: the manifest endpoint answers HTTP 500. *)
Definition env_500 : environment :=
  {| title_innerText := Some "X";
     location_id := Some "abc123";
     network := fun _ _ => Some (http_error 500) |}.

(** ** Page numbers as digit strings *)

Definition is_digit (c : ascii) : bool :=
  ((48 <=? nat_of_ascii c) && (nat_of_ascii c <=? 57))%nat.

Definition digit_value (c : ascii) : nat := nat_of_ascii c - 48.

Fixpoint all_digits (s : string) : bool :=
  match s with
  | EmptyString => true
  | String c rest => is_digit c && all_digits rest
  end.

(** The number a digit string writes, leading zeros allowed. *)
Fixpoint number_value (s : string) : nat :=
  match s with
  | EmptyString => 0
  | String c rest =>
      digit_value c * 10 ^ String.length rest + number_value rest
  end.

(** The padding width of a manifest: the number of digits of its length. *)
Definition padding_of (allPids : list value) : nat :=
  String.length (String_of_nat (List.length allPids)).

(** The page number of the 0-based position [i], padded. *)
Definition pageNumber_of (allPids : list value) (i : nat) : string :=
  padStart (String_of_nat (i + 1)) (padding_of allPids) "0".

(** The identifier at the 0-based position [i] has a resolved URL. *)
Definition resolved_at (allPids : list value) (signedUrlMap : Map) (i : nat)
  : bool :=
  truthy (Map_get signedUrlMap (nth i allPids VUndefined)).

(** The job of the 0-based position [i]. *)
Definition job_at (CONFIG : config) (allPids : list value)
    (signedUrlMap : Map) (i : nat) : job :=
  {| url := Map_get signedUrlMap (nth i allPids VUndefined);
     filename := FILENAME_PREFIX CONFIG ++ "-" ++ pageNumber_of allPids i
                 ++ ".png" |}.

(** Scenario B: twelve identifiers, of which the fourth and the ninth never
    resolve. *)
Definition manifest_B : list value :=
  map (fun i => VStr ("p" ++ String_of_nat i)) (seq 1 12).

Definition signedUrlMap_B : Map :=
  map (fun i => (VStr ("p" ++ String_of_nat i), VStr ("u" ++ String_of_nat i)))
      [1; 2; 3; 5; 6; 7; 8; 10; 11; 12].

(** ** Further observations *)

(** Every request of a trace, in order. *)
Fixpoint fetch_requests (t : list event) : list request :=
  match t with
  | [] => []
  | Fetch rq :: rest => rq :: fetch_requests rest
  | _ :: rest => fetch_requests rest
  end.

(** The delays of a trace, in order. *)
Fixpoint timeouts (t : list event) : list Z :=
  match t with
  | [] => []
  | SetTimeout ms :: rest => ms :: timeouts rest
  | _ :: rest => timeouts rest
  end.

(** Every key and every value of the mapping is truthy. *)
Definition Map_truthy (m : Map) : bool :=
  forallb (fun entry => truthy (fst entry) && truthy (snd entry)) m.

Fixpoint string_forallb (p : ascii -> bool) (s : string) : bool :=
  match s with
  | EmptyString => true
  | String c rest => p c && string_forallb p rest
  end.

(** Neither one of the characters the second pattern of [getFilenamePrefix]
    removes, nor white space. *)
Definition is_clean_char (c : ascii) : bool :=
  negb (is_invalid_char c) && negb (is_space c).

(** What the download loop does for the jobs, the first being job number
    [i + 1] of [total] and fetched as the [n]-th request of the run. *)
Fixpoint download_trace (env : environment) (CONFIG : config)
    (total i n : nat) (jobs : list job) : list event :=
  match jobs with
  | [] => []
  | j :: rest =>
      Console_log ("%cINFO: " ++ "Downloading " ++ String_of_nat (i + 1) ++ "/"
                   ++ String_of_nat total ++ ": " ++ filename j)
                  "color: #03A9F4;"
      :: Fetch (ImageUrl (url j))
      :: (if job_fails env n j then
            Console_error
              ("ERROR: " ++ "Failed to download " ++ filename j)
              (Some match network env n (ImageUrl (url j)) with
                    | None => NetworkError
                    | Some resp =>
                        if negb (ok resp) then Error_image_http (status resp)
                        else NetworkError
                    end)
          else AnchorClick (filename j))
      :: SetTimeout (DOWNLOAD_DELAY_MS CONFIG)
      :: download_trace env CONFIG total (S i) (S n) rest
  end.

(** What the summary prints after its first line. *)
Definition summary_tail (failedDownloads : list string) : list event :=
  ((if (0 <? List.length failedDownloads)%nat then
      Console_log ("%cWARN: " ++ "The following "
                   ++ String_of_nat (List.length failedDownloads)
                   ++ " files failed:")
                  "color: #FFC107;"
      :: map (fun f => Console_log ("%cWARN: " ++ "  - " ++ f)
                                   "color: #FFC107;")
             failedDownloads
    else [])
   ++ [Console_groupEnd])%list.

(** Scenario A with a readable title. *)
Definition env_titled : environment :=
  {| title_innerText := Some "A tale: of two  cities?";
     location_id := Some "abc123";
     network := network_A |}.

Definition CONFIG_no_id : config :=
  {| FILENAME_PREFIX := "X";
     API_REQUEST_DELAY_MS := 50;
     DOWNLOAD_DELAY_MS := 200;
     BOOK_ID := None |}.

(** What STEP 2 and the summary do for the jobs of a manifest, the first job
    being fetched as the [n]-th request of the run. *)
Definition step2_trace (env : environment) (CONFIG : config)
    (allPids : list value) (signedUrlMap : Map) (n : nat) : list event :=
  let jobs := build_downloadJobs CONFIG allPids signedUrlMap in
  let failedDownloads := failures env n jobs in
  ((if (List.length jobs =? List.length allPids)%nat then []
    else [Console_log
            ("%cWARN: " ++ "Could only resolve URLs for "
             ++ String_of_nat (List.length jobs) ++ " of "
             ++ String_of_nat (List.length allPids) ++ " pages.")
            "color: #FFC107;"])
   ++ [Console_group "STEP 2: Downloading Files";
       Console_log
         "%cWARN: Your browser will now ask for permission to download multiple files. YOU MUST CLICK 'ALLOW'."
         "color: #FFC107;"]
   ++ download_trace env CONFIG (List.length jobs) 0 n jobs
   ++ [Console_groupEnd;
       Console_group "Summary";
       Console_log
         ("%cSUCCESS: " ++ "Process complete. Successfully downloaded "
          ++ String_of_Z (Z.of_nat (List.length jobs)
                          - Z.of_nat (List.length failedDownloads))
          ++ " of " ++ String_of_nat (List.length jobs) ++ " files.")
         success_styles]
   ++ summary_tail failedDownloads)%list.

(** A call to the console. *)
Definition is_console_event (e : event) : bool :=
  match e with
  | Console_log _ _ | Console_error _ _ | Console_group _ | Console_groupEnd =>
      true
  | _ => false
  end.

(** The events that are not calls to the console: requests, delays and
    saved files, in order. *)
Definition effects (t : list event) : list event :=
  filter (fun e => negb (is_console_event e)) t.

(** What the download loop does for one job, fetched as the [n]-th request
    of the run, besides logging: the request, the file saved when the job
    does not fail, then the delay. *)
Definition job_effects (env : environment) (CONFIG : config) (n : nat)
    (j : job) : list event :=
  (Fetch (ImageUrl (url j))
   :: (if job_fails env n j then [] else [AnchorClick (filename j)])
   ++ [SetTimeout (DOWNLOAD_DELAY_MS CONFIG)])%list.

Fixpoint jobs_effects (env : environment) (CONFIG : config) (n : nat)
    (jobs : list job) : list event :=
  match jobs with
  | [] => []
  | j :: rest =>
      (job_effects env CONFIG n j ++ jobs_effects env CONFIG (S n) rest)%list
  end.

(** A query that succeeded: the request, then the delay. *)
Definition query_effects (CONFIG : config) (pid : value) : list event :=
  [Fetch (BatchUrl (BOOK_ID_text CONFIG) pid);
   SetTimeout (API_REQUEST_DELAY_MS CONFIG)].

(** An identifier that cannot be written into a URL. *)
Definition pid_toString : value := VObj [("toString", VNum 0)].

(** * Properties *)

Example String_of_nat_150 : String_of_nat 150 = "150".
Proof. reflexivity. Qed.

Example padStart_2_3 : padStart (String_of_nat 2) 3 "0" = "002".
Proof. reflexivity. Qed.

(** ** Keys and maps *)

Lemma key_eqb_eq (a b : value) : key_eqb a b = true -> a = b.
Proof.
  destruct a, b; simpl; try discriminate; intros H; try reflexivity.
  - apply Bool.eqb_prop in H. now subst.
  - apply Z.eqb_eq in H. now subst.
  - apply String.eqb_eq in H. now subst.
Qed.

Lemma key_eqb_trans_false (k k' x : value) :
  key_eqb k' k = false -> key_eqb k' x = true -> key_eqb k x = false.
Proof.
  intros Hne Hx. apply key_eqb_eq in Hx. subst x.
  destruct (key_eqb k k') eqn:E; [|reflexivity].
  pose proof (key_eqb_eq _ _ E) as ->. congruence.
Qed.

Lemma key_eqb_true_l (k k' x : value) :
  key_eqb k' k = true -> key_eqb k' x = key_eqb k x.
Proof. intros H. apply key_eqb_eq in H. now subst. Qed.

Lemma Map_has_set (m : Map) (k v x : value) :
  Map_has (Map_set m k v) x = Map_has m x || key_eqb k x.
Proof.
  induction m as [|[k' v'] rest IH]; simpl.
  - destruct (key_eqb k x); reflexivity.
  - destruct (key_eqb k' k) eqn:E; simpl.
    + rewrite <- (key_eqb_true_l k k' x E).
      destruct (key_eqb k' x); simpl; [reflexivity|].
      now rewrite orb_false_r.
    + destruct (key_eqb k' x); simpl; [reflexivity|apply IH].
Qed.

Lemma Map_get_set (m : Map) (k v x : value) :
  Map_get (Map_set m k v) x = if key_eqb k x then v else Map_get m x.
Proof.
  induction m as [|[k' v'] rest IH]; simpl.
  - reflexivity.
  - destruct (key_eqb k' k) eqn:E; simpl.
    + rewrite <- (key_eqb_true_l k k' x E).
      destruct (key_eqb k' x); reflexivity.
    + destruct (key_eqb k' x) eqn:Ex.
      * now rewrite (key_eqb_trans_false k k' x E Ex).
      * apply IH.
Qed.

Lemma Map_has_get_undefined (m : Map) (x : value) :
  Map_has m x = false -> Map_get m x = VUndefined.
Proof.
  induction m as [|[k v] rest IH]; simpl; [reflexivity|].
  destruct (key_eqb k x); [discriminate|exact IH].
Qed.

Lemma Map_set_wf (m : Map) (k v : value) : Map_wf m -> Map_wf (Map_set m k v).
Proof.
  induction m as [|[k' v'] rest IH]; simpl.
  - auto.
  - intros [Hk Hwf]. destruct (key_eqb k' k) eqn:E; simpl.
    + auto.
    + split; [|auto]. rewrite Map_has_set, Hk. simpl.
      destruct (key_eqb k k') eqn:E'; [|reflexivity].
      pose proof (key_eqb_eq _ _ E') as ->. congruence.
Qed.

Lemma merge_batch_has (b m : Map) (x : value) :
  Map_has (merge_batch m b) x = Map_has m x || Map_has b x.
Proof.
  unfold merge_batch. revert m.
  induction b as [|[k v] rest IH]; intros m; simpl.
  - now rewrite orb_false_r.
  - rewrite IH, Map_has_set. simpl.
    destruct (Map_has m x), (key_eqb k x); reflexivity.
Qed.

Lemma merge_batch_get (b m : Map) (x : value) :
  Map_wf b ->
  Map_get (merge_batch m b) x = if Map_has b x then Map_get b x
                                else Map_get m x.
Proof.
  unfold merge_batch. revert m.
  induction b as [|[k v] rest IH]; intros m Hwf; simpl.
  - reflexivity.
  - destruct Hwf as [Hk Hwf]. rewrite (IH _ Hwf), Map_get_set.
    destruct (key_eqb k x) eqn:E.
    + apply key_eqb_eq in E. subst x. now rewrite Hk.
    + reflexivity.
Qed.

Lemma batch_loop_wf (pages : list value) :
  forall (m b : Map), Map_wf m -> batch_loop pages m = Ok b -> Map_wf b.
Proof.
  induction pages as [|page rest IH]; intros m b Hwf; simpl.
  - intros [= <-]. exact Hwf.
  - destruct (get_prop page "src") as [src|]; [|discriminate].
    destruct (truthy src); [|now apply IH].
    destruct (get_prop page "pid") as [pid|]; [|discriminate].
    destruct (truthy pid); [|now apply IH].
    apply IH. now apply Map_set_wf.
Qed.

(** ** The URL mapping: what a merge does (C3) *)

(** C3, as stated, fails.  In a run over the manifest [p1, p2] where the
    answer for [p1] resolves [p1] to [u1] and the answer for [p2] carries
    [p1] again with [u1b], the mapping ends with [u1b] for [p1]: the value
    present for [p1] was changed by the later merge.  Hence it is not true
    that a merge leaves the value of every present identifier in place. *)
Lemma first_resolution_overwritten :
  (exists s,
      resolve_loop env_refresh CONFIG_X 2 0 [VStr "p1"; VStr "p2"] Map_new
                   initial_state
      = (Ok [(VStr "p1", VStr "u1b"); (VStr "p2", VStr "u2")], s))
  /\ ~ (forall (signedUrlMap : Map) (pages : list value) (batchMap : Map)
               (pid : value),
           batch_loop pages Map_new = Ok batchMap ->
           Map_has signedUrlMap pid = true ->
           Map_get (merge_batch signedUrlMap batchMap) pid
           = Map_get signedUrlMap pid).
Proof.
  split.
  - eexists. vm_compute. reflexivity.
  - intros H.
    specialize (H [(VStr "p1", VStr "u1")]
                  [page_entry "p1" (Some "u1b"); page_entry "p2" (Some "u2")]
                  [(VStr "p1", VStr "u1b"); (VStr "p2", VStr "u2")]
                  (VStr "p1") eq_refl eq_refl).
    vm_compute in H. discriminate H.
Qed.

(** C3, amended: merging a batch gives every identifier of the batch the
    URL of the batch, also when the mapping already had a value for it (the
    last resolution wins); an identifier that is not in the batch keeps its
    value, and an identifier that is in the mapping stays in it. *)
Theorem merge_batch_last_wins :
  forall (signedUrlMap : Map) (pages : list value) (batchMap : Map)
         (pid : value),
    batch_loop pages Map_new = Ok batchMap ->
    Map_get (merge_batch signedUrlMap batchMap) pid
    = (if Map_has batchMap pid then Map_get batchMap pid
       else Map_get signedUrlMap pid)
    /\ (Map_has signedUrlMap pid = true ->
        Map_has (merge_batch signedUrlMap batchMap) pid = true).
Proof.
  intros m pages b pid Hb. split.
  - apply merge_batch_get. apply (batch_loop_wf pages Map_new b); simpl; auto.
  - intros Hm. rewrite merge_batch_has, Hm. reflexivity.
Qed.

Lemma merge_batch_last_wins_witness :
  Map_get (merge_batch [(VStr "p1", VStr "u1")]
                       [(VStr "p1", VStr "u1b"); (VStr "p2", VStr "u2")])
          (VStr "p1")
  = VStr "u1b"
  /\ Map_has (merge_batch [(VStr "p1", VStr "u1")]
                          [(VStr "p1", VStr "u1b"); (VStr "p2", VStr "u2")])
             (VStr "p1")
     = true.
Proof.
  destruct (merge_batch_last_wins
              [(VStr "p1", VStr "u1")]
              [page_entry "p1" (Some "u1b"); page_entry "p2" (Some "u2")]
              [(VStr "p1", VStr "u1b"); (VStr "p2", VStr "u2")]
              (VStr "p1") eq_refl) as [Hget Hhas].
  split; [exact Hget | exact (Hhas eq_refl)].
Defined.

(** ** Batch entries (C10) *)

Lemma lookup_remove_prop_same (f : string) (props : list (string * value)) :
  lookup_prop (remove_prop f props) f = VUndefined.
Proof.
  induction props as [|[k v] rest IH]; simpl; [reflexivity|].
  destruct (k =? f) eqn:E; simpl; [exact IH|].
  now rewrite E.
Qed.

Lemma lookup_remove_prop_other (f g : string) (props : list (string * value)) :
  f <> g -> lookup_prop (remove_prop f props) g = lookup_prop props g.
Proof.
  intros Hfg. induction props as [|[k v] rest IH]; simpl; [reflexivity|].
  destruct (k =? f) eqn:E; simpl.
  - apply String.eqb_eq in E. subst k.
    destruct (f =? g) eqn:E'; [apply String.eqb_eq in E'; contradiction|].
    exact IH.
  - destruct (k =? g); [reflexivity|exact IH].
Qed.

Lemma batch_loop_app (pre post : list value) :
  forall m : Map,
    batch_loop (pre ++ post)%list m
    = match batch_loop pre m with
      | Ok m' => batch_loop post m'
      | Throw e => Throw e
      end.
Proof.
  induction pre as [|page rest IH]; intros m; simpl; [reflexivity|].
  destruct (get_prop page "src") as [src|]; [|reflexivity].
  destruct (truthy src); [|apply IH].
  destruct (get_prop page "pid") as [pid|]; [|reflexivity].
  destruct (truthy pid); apply IH.
Qed.

Lemma batch_loop_skip (props : list (string * value)) (f : string)
    (post : list value) (m : Map) :
  f = "pid" \/ f = "src" ->
  truthy (lookup_prop props f) = false ->
  batch_loop (VObj props :: post) m = batch_loop post m.
Proof.
  intros [-> | ->] Hf; simpl.
  - destruct (truthy (lookup_prop props "src")); [|reflexivity].
    now rewrite Hf.
  - now rewrite Hf.
Qed.

Lemma batch_loop_origin (pages : list value) :
  forall (m b : Map) (k : value),
    batch_loop pages m = Ok b ->
    Map_has b k = true ->
    Map_has m k = true
    \/ exists page src,
        In page pages
        /\ get_prop page "pid" = Ok k /\ truthy k = true
        /\ get_prop page "src" = Ok src /\ truthy src = true.
Proof.
  induction pages as [|page rest IH]; intros m b k; simpl.
  - intros [= <-] Hk. now left.
  - destruct (get_prop page "src") as [src|] eqn:Hsrc; [|discriminate].
    destruct (truthy src) eqn:Tsrc.
    + destruct (get_prop page "pid") as [pid|] eqn:Hpid; [|discriminate].
      destruct (truthy pid) eqn:Tpid.
      * intros Hb Hk. destruct (IH _ _ _ Hb Hk) as [Hm | (p & s & Hin & H)].
        -- rewrite Map_has_set in Hm. apply orb_true_iff in Hm.
           destruct Hm as [Hm | Hm]; [now left|].
           apply key_eqb_eq in Hm. subst k.
           right. exists page, src. auto 6.
        -- right. exists p, s. auto.
      * intros Hb Hk. destruct (IH _ _ _ Hb Hk) as [Hm | (p & s & Hin & H)].
        -- now left.
        -- right. exists p, s. auto.
    + intros Hb Hk. destruct (IH _ _ _ Hb Hk) as [Hm | (p & s & Hin & H)].
      * now left.
      * right. exists p, s. auto.
Qed.

(** C10: an identifier is a key of the mapping a batch yields only when some
    entry of the response carries it with a truthy identifier field and a
    truthy source-URL field; and an entry whose identifier or source-URL
    field is present with a falsy value (the empty string, 0, false, null)
    changes nothing: the loop gives what it gives without that field, and
    what it gives without the entry. *)
Theorem batch_entry_needs_both_truthy :
  forall (pages : list value) (batchMap : Map) (k : value)
         (pre post : list value) (props : list (string * value))
         (f : string) (m : Map),
    (batch_loop pages Map_new = Ok batchMap ->
     Map_has batchMap k = true ->
     exists page src,
       In page pages
       /\ get_prop page "pid" = Ok k /\ truthy k = true
       /\ get_prop page "src" = Ok src /\ truthy src = true)
    /\ (f = "pid" \/ f = "src" ->
        truthy (lookup_prop props f) = false ->
        batch_loop (pre ++ VObj props :: post)%list m
        = batch_loop (pre ++ VObj (remove_prop f props) :: post)%list m
        /\ batch_loop (pre ++ VObj props :: post)%list m
           = batch_loop (pre ++ post)%list m).
Proof.
  intros pages b k pre post props f m. split.
  - intros Hb Hk.
    destruct (batch_loop_origin pages Map_new b k Hb Hk) as [Hm | H];
      [discriminate Hm | exact H].
  - intros Hf Hfalsy.
    assert (Habsent : truthy (lookup_prop (remove_prop f props) f) = false)
      by now rewrite lookup_remove_prop_same.
    rewrite !batch_loop_app.
    destruct (batch_loop pre m) as [m'|e]; [|auto].
    rewrite (batch_loop_skip props f post m' Hf Hfalsy).
    rewrite (batch_loop_skip (remove_prop f props) f post m' Hf Habsent).
    auto.
Qed.

Lemma batch_entry_needs_both_truthy_witness :
  (exists page src,
      In page [page_entry "p1" (Some "u1")]
      /\ get_prop page "pid" = Ok (VStr "p1") /\ truthy (VStr "p1") = true
      /\ get_prop page "src" = Ok src /\ truthy src = true)
  /\ batch_loop [VObj [("pid", VStr "p7"); ("src", VStr EmptyString)];
                 page_entry "p1" (Some "u1")] Map_new
     = batch_loop [VObj [("pid", VStr "p7")];
                   page_entry "p1" (Some "u1")] Map_new.
Proof.
  destruct (batch_entry_needs_both_truthy
              [page_entry "p1" (Some "u1")] [(VStr "p1", VStr "u1")]
              (VStr "p1") [] [page_entry "p1" (Some "u1")]
              [("pid", VStr "p7"); ("src", VStr EmptyString)] "src" Map_new)
    as [A B].
  split.
  - apply A; reflexivity.
  - apply B; [now right | reflexivity].
Defined.

(** ** The two endpoints (C6, C7) *)

Lemma get_prop_not_nullish (page : value) (k : string) :
  is_nullish page = false -> get_prop page k = Ok (get_prop_opt page k).
Proof. destruct page; simpl; intros H; try discriminate; reflexivity. Qed.

Lemma get_prop_nullish (page : value) (k : string) :
  is_nullish page = true -> get_prop page k = Throw TypeError.
Proof. destruct page; simpl; intros H; try discriminate; reflexivity. Qed.

Lemma array_map_pid (elems : list value) :
  array_map (fun p => get_prop p "pid") elems
  = if existsb is_nullish elems then Throw TypeError
    else Ok (map (fun p => get_prop_opt p "pid") elems).
Proof.
  induction elems as [|p rest IH]; simpl; [reflexivity|].
  destruct (is_nullish p) eqn:E; simpl.
  - now rewrite (get_prop_nullish p "pid" E).
  - rewrite (get_prop_not_nullish p "pid" E), IH.
    destruct (existsb is_nullish rest); reflexivity.
Qed.

Lemma batch_loop_nullish (pages : list value) :
  forall m : Map,
    existsb is_nullish pages = true -> batch_loop pages m = Throw TypeError.
Proof.
  induction pages as [|p rest IH]; intros m; simpl; [discriminate|].
  destruct (is_nullish p) eqn:E; simpl.
  - intros _. now rewrite (get_prop_nullish p "src" E).
  - intros H.
    rewrite (get_prop_not_nullish p "src" E), (get_prop_not_nullish p "pid" E).
    destruct (truthy (get_prop_opt p "src")); [|now apply IH].
    destruct (truthy (get_prop_opt p "pid")); now apply IH.
Qed.

Lemma batch_loop_filter (pages : list value) :
  forall m : Map,
    existsb is_nullish pages = false ->
    batch_loop pages m = batch_loop (filter complete_entry pages) m
    /\ exists b, batch_loop pages m = Ok b.
Proof.
  induction pages as [|p rest IH]; intros m; simpl.
  - intros _. split; [reflexivity | now exists m].
  - destruct (is_nullish p) eqn:E; simpl; [discriminate|]. intros H.
    unfold complete_entry.
    rewrite (get_prop_not_nullish p "src" E), (get_prop_not_nullish p "pid" E).
    destruct (truthy (get_prop_opt p "src")) eqn:Ts;
      destruct (truthy (get_prop_opt p "pid")) eqn:Tp;
      simpl; try (now apply IH).
    rewrite (get_prop_not_nullish p "src" E), (get_prop_not_nullish p "pid" E).
    rewrite Ts, Tp. now apply IH.
Qed.

Lemma getPageManifest_run (env : environment) (CONFIG : config) (s : state) :
  ApiService.getPageManifest env CONFIG s
  = (match network env (fetches s) (ManifestUrl (BOOK_ID_text CONFIG)) with
     | None => Throw NetworkError
     | Some resp =>
         if negb (ok resp) then Throw (Error_manifest_http (status resp))
         else
           match json resp with
           | None => Throw SyntaxError
           | Some data =>
               match manifest_pids data with
               | Throw e => Throw e
               | Ok None | Ok (Some []) => Throw Error_manifest_parse
               | Ok (Some pids) => Ok pids
               end
           end
     end,
     after_fetch s (ManifestUrl (BOOK_ID_text CONFIG))).
Proof.
  unfold ApiService.getPageManifest, bind, fetch, after_fetch.
  destruct (network env (fetches s) _) as [resp|]; [|reflexivity].
  destruct (ok resp); simpl; [|reflexivity].
  unfold response_json, bind.
  destruct (json resp) as [data|]; simpl; [|reflexivity].
  unfold lift.
  destruct (manifest_pids data) as [[[|p pids]|]|]; reflexivity.
Qed.

Lemma getPageBatch_run (env : environment) (CONFIG : config) (pid : value)
    (s : state) :
  ApiService.getPageBatch env CONFIG pid s
  = if stringifiable pid then
      (match network env (fetches s) (BatchUrl (BOOK_ID_text CONFIG) pid) with
       | None => Throw NetworkError
       | Some resp =>
           if negb (ok resp) then Throw (Error_batch_http pid (status resp))
           else
             match json resp with
             | None => Throw SyntaxError
             | Some data =>
                 if negb (truthy (get_prop_opt data "page"))
                 then Throw (Error_batch_invalid pid)
                 else
                   match iterate (get_prop_opt data "page") with
                   | Throw e => Throw e
                   | Ok pages => batch_loop pages Map_new
                   end
             end
       end,
       after_fetch s (BatchUrl (BOOK_ID_text CONFIG) pid))
    else (Throw TypeError, s).
Proof.
  unfold ApiService.getPageBatch.
  destruct (stringifiable pid); [|reflexivity]. cbn [negb].
  unfold bind, fetch, after_fetch.
  destruct (network env (fetches s) _) as [resp|]; [|reflexivity].
  destruct (ok resp); simpl; [|reflexivity].
  unfold response_json, bind.
  destruct (json resp) as [data|]; simpl; [|reflexivity].
  destruct (truthy (get_prop_opt data "page")); simpl; [|reflexivity].
  unfold lift.
  destruct (iterate (get_prop_opt data "page")) as [pages|]; [|reflexivity].
  destruct (batch_loop pages Map_new); reflexivity.
Qed.

(** C6, as stated, fails: for an OK response whose page list is present and
    not empty, [[null]], the call throws (a [TypeError] at [p.pid]) instead
    of returning a list of identifiers. *)
Lemma getPageManifest_null_entry_throws :
  fst (ApiService.getPageManifest env_null_entry CONFIG_X initial_state)
  = Throw TypeError
  /\ ~ (forall (env : environment) (CONFIG : config) (s : state)
               (resp : response) (data : value),
           network env (fetches s) (ManifestUrl (BOOK_ID_text CONFIG))
           = Some resp ->
           json resp = Some data ->
           (is_throw (fst (ApiService.getPageManifest env CONFIG s)) = true
            <-> ok resp = false
                \/ page_list data = None
                \/ page_list data = Some [])).
Proof.
  split; [reflexivity|].
  intros H.
  specialize (H env_null_entry CONFIG_X initial_state
                (page_response [VNull]) (VObj [("page", VArr [VNull])])
                eq_refl eq_refl).
  destruct H as [H _]. specialize (H eq_refl).
  destruct H as [H | [H | H]]; discriminate H.
Qed.

(** C6, amended: [getPageManifest] throws if and only if [fetch] is
    rejected, or the response has a non-OK status, or its body is not JSON,
    or the parsed [page] is not a list (absent, null or any other value), or
    the list is empty, or the list has a null entry; otherwise it returns
    the [pid] of every entry of the list, in order, one per entry. *)
Theorem getPageManifest_throws_iff :
  forall (env : environment) (CONFIG : config) (s : state),
    let outcome :=
      network env (fetches s) (ManifestUrl (BOOK_ID_text CONFIG)) in
    let r := fst (ApiService.getPageManifest env CONFIG s) in
    (is_throw r = true
     <-> outcome = None
         \/ exists resp,
             outcome = Some resp
             /\ (ok resp = false
                 \/ json resp = None
                 \/ exists data,
                     json resp = Some data
                     /\ (page_list data = None
                         \/ exists elems,
                             page_list data = Some elems
                             /\ (elems = []
                                 \/ existsb is_nullish elems = true))))
    /\ (is_throw r = false ->
        exists resp data elems,
          outcome = Some resp /\ json resp = Some data
          /\ page_list data = Some elems
          /\ r = Ok (map (fun p => get_prop_opt p "pid") elems)).
Proof.
  intros env CONFIG s outcome r. subst r.
  rewrite getPageManifest_run. fold outcome. simpl fst.
  destruct outcome as [resp|].
  2:{ split; [split; auto | discriminate]. }
  destruct (ok resp) eqn:Hok; simpl.
  2:{ split; [split; eauto 6 | discriminate]. }
  destruct (json resp) as [data|] eqn:Hjson.
  2:{ split; [split; eauto 6 | discriminate]. }
  unfold manifest_pids.
  destruct (get_prop_opt data "page") as [| |b|n|str|elems|props] eqn:Hpage;
    try (split;
         [split; [intros _; right; exists resp; split; [reflexivity|];
                  right; right; exists data; split; [exact Hjson|];
                  left; unfold page_list; now rewrite Hpage
                 | reflexivity]
         | discriminate]).
  rewrite array_map_pid.
  assert (Hlist : page_list data = Some elems)
    by (unfold page_list; now rewrite Hpage).
  destruct (existsb is_nullish elems) eqn:Hnull.
  { split; [split; [|reflexivity] | discriminate].
    intros _. right. exists resp. split; [reflexivity|].
    right. right. exists data. split; [exact Hjson|].
    right. exists elems. auto. }
  destruct elems as [|p rest]; simpl map.
  { split; [split; [|reflexivity] | discriminate].
    intros _. right. exists resp. split; [reflexivity|].
    right. right. exists data. split; [exact Hjson|].
    right. exists []. auto. }
  split.
  - split; [discriminate|].
    intros [H | (resp' & [= <-] & [H | [H | (data' & H1 & H2)]])];
      try congruence.
    assert (data' = data) by congruence. subst data'.
    destruct H2 as [H2 | (elems' & H2 & [H3 | H3])]; congruence.
  - intros _. exists resp, data, (p :: rest). auto.
Qed.

Lemma getPageManifest_throws_iff_witness :
  fst (ApiService.getPageManifest env_three_pages CONFIG_X initial_state)
  = Ok [VStr "p1"; VStr "p2"; VStr "p3"].
Proof.
  destruct (proj2 (getPageManifest_throws_iff env_three_pages CONFIG_X
                     initial_state) eq_refl)
    as (resp & data & elems & Hresp & Hjson & Hlist & Hr).
  injection Hresp as <-. injection Hjson as <-. injection Hlist as <-.
  exact Hr.
Defined.

(** C7, as stated, fails: for an OK response whose page list is present,
    [[null]], the call throws (a [TypeError] at [page.src]); the null entry
    is not ignored. *)
Lemma getPageBatch_null_entry_throws :
  fst (ApiService.getPageBatch env_null_entry CONFIG_X (VStr "p1")
                               initial_state)
  = Throw TypeError
  /\ ~ (forall (env : environment) (CONFIG : config) (pid : value)
               (s : state) (resp : response) (data : value),
           network env (fetches s) (BatchUrl (BOOK_ID_text CONFIG) pid)
           = Some resp ->
           json resp = Some data ->
           (is_throw (fst (ApiService.getPageBatch env CONFIG pid s)) = true
            <-> ok resp = false \/ page_list data = None)).
Proof.
  split; [reflexivity|].
  intros H.
  specialize (H env_null_entry CONFIG_X (VStr "p1") initial_state
                (page_response [VNull]) (VObj [("page", VArr [VNull])])
                eq_refl eq_refl).
  destruct H as [H _]. specialize (H eq_refl).
  destruct H as [H | H]; discriminate H.
Qed.

(** C7, amended: [getPageBatch] throws if and only if the identifier cannot
    be converted to a string for the URL (an object with a property
    [toString] of its own, or an array that holds one), or [fetch] is
    rejected, or the response has a non-OK status, or its body is not JSON,
    or the parsed [page] is falsy (absent, null, false, 0 or the empty
    string), or it is truthy and cannot be iterated (a number, true, an
    object), or one of the entries it iterates over is null.  For an
    identifier that can be converted, a present page list without a null
    entry is never an error: the result is the mapping built from the
    entries that carry both fields with truthy values, all other entries
    being ignored, and it is the empty mapping for the empty list. *)
Theorem getPageBatch_throws_iff :
  forall (env : environment) (CONFIG : config) (pid : value) (s : state),
    let outcome :=
      network env (fetches s) (BatchUrl (BOOK_ID_text CONFIG) pid) in
    let r := fst (ApiService.getPageBatch env CONFIG pid s) in
    (is_throw r = true
     <-> stringifiable pid = false
         \/ outcome = None
         \/ exists resp,
             outcome = Some resp
             /\ (ok resp = false
                 \/ json resp = None
                 \/ exists data,
                     json resp = Some data
                     /\ (truthy (get_prop_opt data "page") = false
                         \/ iterate (get_prop_opt data "page")
                            = Throw TypeError
                         \/ exists pages,
                             iterate (get_prop_opt data "page") = Ok pages
                             /\ existsb is_nullish pages = true)))
    /\ (forall resp data elems,
           stringifiable pid = true ->
           outcome = Some resp -> ok resp = true -> json resp = Some data ->
           page_list data = Some elems ->
           existsb is_nullish elems = false ->
           r = batch_loop (filter complete_entry elems) Map_new
           /\ (exists batchMap, r = Ok batchMap)
           /\ (elems = [] -> r = Ok Map_new)).
Proof.
  intros env CONFIG pid s outcome r. subst r.
  rewrite getPageBatch_run. fold outcome.
  destruct (stringifiable pid) eqn:Hstr; cbn [fst].
  2:{ split; [split; auto | discriminate]. }
  split.
  - destruct outcome as [resp|]; [|split; auto].
    destruct (ok resp) eqn:Hok; simpl.
    2:{ split; [intros _|reflexivity]. right. right. exists resp. auto. }
    destruct (json resp) as [data|] eqn:Hjson.
    2:{ split; [intros _|reflexivity]. right. right. exists resp. auto. }
    destruct (truthy (get_prop_opt data "page")) eqn:Htruthy; simpl.
    2:{ split; [intros _|reflexivity].
        right. right. exists resp. split; [reflexivity|].
        right. right. exists data. split; [exact Hjson|]. now left. }
    destruct (iterate (get_prop_opt data "page")) as [pages|e] eqn:Hiter.
    + destruct (existsb is_nullish pages) eqn:Hnull.
      * rewrite (batch_loop_nullish pages Map_new Hnull).
        split; [intros _|reflexivity].
        right. right. exists resp. split; [reflexivity|].
        right. right. exists data. split; [exact Hjson|].
        right. right. exists pages. auto.
      * destruct (proj2 (batch_loop_filter pages Map_new Hnull)) as [b ->].
        split; [discriminate|].
        intros [H | [H | (resp' & [= <-] & [H | [H | (data' & H1 & H2)]])]];
          try congruence.
        assert (data' = data) by congruence. subst data'.
        destruct H2 as [H2 | [H2 | (pages' & H2 & H3)]]; congruence.
    + assert (e = TypeError) as ->.
      { destruct (get_prop_opt data "page"); simpl in Hiter; congruence. }
      split; [intros _|reflexivity].
      right. right. exists resp. split; [reflexivity|].
      right. right. exists data. split; [exact Hjson|]. auto.
  - intros resp data elems _ Hout Hok Hjson Hlist Hnull.
    rewrite Hout, Hok, Hjson. simpl.
    unfold page_list in Hlist.
    destruct (get_prop_opt data "page") as [| | | | |elems'|]; try discriminate.
    injection Hlist as ->. simpl.
    destruct (batch_loop_filter elems Map_new Hnull) as [Hf [b Hb]].
    split; [exact Hf|]. split; [now exists b|].
    intros ->. reflexivity.
Qed.

Lemma getPageBatch_throws_iff_witness :
  fst (ApiService.getPageBatch env_three_pages CONFIG_X (VStr "p1")
                               initial_state)
  = Ok [(VStr "p1", VStr "u1"); (VStr "p3", VStr "u3")].
Proof.
  exact (proj1 (proj2 (getPageBatch_throws_iff env_three_pages CONFIG_X
                         (VStr "p1") initial_state)
                      (page_response [page_entry "p1" (Some "u1");
                                      page_entry "p2" None;
                                      page_entry "p3" (Some "u3")])
                      (VObj [("page", VArr [page_entry "p1" (Some "u1");
                                            page_entry "p2" None;
                                            page_entry "p3" (Some "u3")])])
                      [page_entry "p1" (Some "u1"); page_entry "p2" None;
                       page_entry "p3" (Some "u3")]
                      eq_refl eq_refl eq_refl eq_refl eq_refl eq_refl)).
Defined.

(** ** The filename prefix (C9) *)

(** With the binding [Logger] initialised, a page without the title element
    gives the default prefix after a warning. *)
Lemma getFilenamePrefix_default (env : environment) (s : state) :
  title_innerText env = None ->
  getFilenamePrefix env Initialized s
  = (Ok "Book",
     add_event s
       (Console_log
          "%cWARN: Could not find book title element. Using default 'Book' prefix."
          "color: #FFC107;")).
Proof. intros H. unfold getFilenamePrefix. rewrite H. reflexivity. Qed.

(** C9 fails on the code: [CONFIG] is built, and [getFilenamePrefix] called,
    before the declaration of [Logger] has been evaluated.  On a page without
    the title element the call reads [Logger], which throws a
    [ReferenceError]: no prefix is computed, [main] never runs and nothing
    is logged or fetched. *)
Theorem script_without_title_throws :
  forall (id : option string) (net : nat -> request -> option response),
    getFilenamePrefix
      {| title_innerText := None; location_id := id; network := net |}
      Uninitialized initial_state
    = (Throw ReferenceError_Logger, initial_state)
    /\ script {| title_innerText := None; location_id := id; network := net |}
              initial_state
       = (Throw ReferenceError_Logger, initial_state).
Proof. intros id net. split; reflexivity. Qed.

(** ** Traces *)

Lemma batch_queries_app (t1 t2 : list event) :
  batch_queries (t1 ++ t2) = (batch_queries t1 ++ batch_queries t2)%list.
Proof.
  induction t1 as [|e t1 IH]; simpl; [reflexivity|].
  destruct e as [| | | |[| |]| |]; simpl; now rewrite ?IH.
Qed.

Lemma image_fetches_app (t1 t2 : list event) :
  image_fetches (t1 ++ t2) = (image_fetches t1 ++ image_fetches t2)%list.
Proof.
  induction t1 as [|e t1 IH]; simpl; [reflexivity|].
  destruct e as [| | | |[| |]| |]; simpl; now rewrite ?IH.
Qed.

Lemma saved_files_app (t1 t2 : list event) :
  saved_files (t1 ++ t2) = (saved_files t1 ++ saved_files t2)%list.
Proof.
  induction t1 as [|e t1 IH]; simpl; [reflexivity|].
  destruct e; simpl; now rewrite ?IH.
Qed.

(** ** The URL resolution loop (C2) *)

Lemma resolve_loop_cons (env : environment) (CONFIG : config) (total i : nat)
    (pid : value) (rest : list value) (m : Map) (s : state) :
  resolve_loop env CONFIG total i (pid :: rest) m s
  = if Map_has m pid then resolve_loop env CONFIG total (S i) rest m s
    else
      let s1 :=
        add_event s
          (Console_log ("%cINFO: " ++ "Fetching data for page "
                        ++ String_of_nat (i + 1) ++ "/"
                        ++ String_of_nat total ++ "...")
                       "color: #03A9F4;") in
      let rq := BatchUrl (BOOK_ID_text CONFIG) pid in
      match fst (ApiService.getPageBatch env CONFIG pid s1) with
      | Throw e =>
          (Throw e, if stringifiable pid then after_fetch s1 rq else s1)
      | Ok batchMap =>
          resolve_loop env CONFIG total (S i) rest (merge_batch m batchMap)
            (add_event (after_fetch s1 rq)
                       (SetTimeout (API_REQUEST_DELAY_MS CONFIG)))
      end.
Proof.
  cbn [resolve_loop]. destruct (Map_has m pid); [reflexivity|].
  unfold bind, Logger.info, Logger._log, emit, delay. cbv zeta.
  rewrite getPageBatch_run.
  destruct (stringifiable pid); [|reflexivity]. cbn [fst].
  match goal with |- match ?x with Ok _ => _ | Throw _ => _ end = _ =>
    destruct x end; reflexivity.
Qed.

Lemma resolve_loop_app (env : environment) (CONFIG : config) (total : nat)
    (pre post : list value) :
  forall (i : nat) (m : Map) (s : state),
    resolve_loop env CONFIG total i (pre ++ post)%list m s
    = match resolve_loop env CONFIG total i pre m s with
      | (Ok m', s') =>
          resolve_loop env CONFIG total (i + List.length pre) post m' s'
      | (Throw e, s') => (Throw e, s')
      end.
Proof.
  induction pre as [|pid rest IH]; intros i m s.
  - simpl. unfold ret. now rewrite Nat.add_0_r.
  - change ((pid :: rest) ++ post)%list with (pid :: (rest ++ post))%list.
    rewrite !resolve_loop_cons. cbv zeta.
    replace (i + List.length (pid :: rest)) with (S i + List.length rest)
      by (simpl; lia).
    destruct (Map_has m pid); [apply IH|].
    match goal with |- context [fst ?x] => destruct (fst x) end;
      [apply IH | reflexivity].
Qed.

(** From any moment of the loop on: everything done is discovery, no query
    goes to an identifier that is a key at that moment, at most one query is
    issued per position left, and keys stay keys. *)
Lemma resolve_loop_rest (env : environment) (CONFIG : config) (total : nat)
    (pids : list value) :
  forall (i : nat) (m : Map) (s : state) (r : result Map) (s' : state),
    resolve_loop env CONFIG total i pids m s = (r, s') ->
    exists t,
      trace s' = (trace s ++ t)%list
      /\ downloadJobs s' = downloadJobs s
      /\ forallb is_discovery_event t = true
      /\ (forall id pid,
             Map_has m pid = true -> ~ In (Fetch (BatchUrl id pid)) t)
      /\ List.length (batch_queries t) <= List.length pids
      /\ (forall m' pid,
             r = Ok m' -> Map_has m pid = true -> Map_has m' pid = true).
Proof.
  induction pids as [|pid rest IH]; intros i m s r s'.
  - simpl. unfold ret. intros [= <- <-]. exists [].
    rewrite app_nil_r. repeat split; auto.
    intros m' pid [= <-]. auto.
  - rewrite resolve_loop_cons. cbv zeta.
    destruct (Map_has m pid) eqn:Hhas.
    + intros H. destruct (IH _ _ _ _ _ H) as (t & Ht & Hj & Hd & Hq & Hn & Hk).
      exists t. repeat split; auto. simpl. lia.
    + set (info := Console_log _ _).
      set (rq := BatchUrl (BOOK_ID_text CONFIG) pid).
      destruct (fst _) as [b|e].
      * intros H. destruct (IH _ _ _ _ _ H) as (t & Ht & Hj & Hd & Hq & Hn & Hk).
        exists (info :: Fetch rq
                :: SetTimeout (API_REQUEST_DELAY_MS CONFIG) :: t).
        split; [|split; [|split; [|split; [|split]]]].
        -- rewrite Ht. simpl. now rewrite <- !app_assoc.
        -- rewrite Hj. reflexivity.
        -- simpl. exact Hd.
        -- intros id pid' Hpid' [Hin | [Hin | [Hin | Hin]]];
             try discriminate Hin.
           ++ injection Hin as _ ->. congruence.
           ++ apply (Hq id pid'); [|exact Hin].
              rewrite merge_batch_has, Hpid'. reflexivity.
        -- simpl. lia.
        -- intros m' pid' Hr Hpid'. apply Hk; [exact Hr|].
           rewrite merge_batch_has, Hpid'. reflexivity.
      * intros [= <- <-].
        exists (if stringifiable pid then [info; Fetch rq] else [info]).
        destruct (stringifiable pid).
        -- split; [|split; [|split; [|split; [|split]]]].
           ++ simpl. now rewrite <- app_assoc.
           ++ reflexivity.
           ++ reflexivity.
           ++ intros id pid' Hpid' [Hin | [Hin | []]]; try discriminate Hin.
              injection Hin as _ ->. congruence.
           ++ simpl. lia.
           ++ discriminate.
        -- split; [|split; [|split; [|split; [|split]]]].
           ++ reflexivity.
           ++ reflexivity.
           ++ reflexivity.
           ++ intros id pid' Hpid' [Hin | []]. discriminate Hin.
           ++ simpl. lia.
           ++ discriminate.
Qed.

(** C2, as stated, fails in its second part: over the manifest [p, p], with
    a provider whose answer for [p] carries no source URL, [p] is still not
    a key when its second position is visited, and it is queried twice. *)
Lemma unresolved_duplicate_queried_twice :
  batch_queries
    (trace (snd (resolve_loop env_no_src CONFIG_X 2 0 [VStr "p"; VStr "p"]
                              Map_new initial_state)))
  = [VStr "p"; VStr "p"]
  /\ ~ (forall (env : environment) (CONFIG : config) (allPids : list value),
           NoDup (batch_queries
                    (trace (snd (resolve_loop env CONFIG
                                   (List.length allPids) 0 allPids Map_new
                                   initial_state))))).
Proof.
  split; [reflexivity|].
  intros H. specialize (H env_no_src CONFIG_X [VStr "p"; VStr "p"]).
  change (NoDup [VStr "p"; VStr "p"]) in H.
  inversion H as [|x l Hnotin _]. apply Hnotin. now left.
Qed.

Lemma resolve_loop_head_query (env : environment) (CONFIG : config)
    (total i : nat) (pid : value) (rest : list value) (m : Map) (s : state)
    (r : result Map) (s' : state) :
  Map_has m pid = false -> stringifiable pid = true ->
  resolve_loop env CONFIG total i (pid :: rest) m s = (r, s') ->
  exists t, exists qs,
    trace s' = (trace s ++ t)%list /\ batch_queries t = pid :: qs.
Proof.
  intros Hhas Hstr. rewrite resolve_loop_cons, Hhas, Hstr. cbv zeta.
  set (info := Console_log _ _).
  set (rq := BatchUrl (BOOK_ID_text CONFIG) pid).
  destruct (fst _) as [b|e].
  - intros H.
    destruct (resolve_loop_rest _ _ _ _ _ _ _ _ _ H) as (t & Ht & _).
    exists (info :: Fetch rq :: SetTimeout (API_REQUEST_DELAY_MS CONFIG) :: t),
      (batch_queries t).
    split; [|reflexivity].
    rewrite Ht. cbn [trace add_event after_fetch].
    now rewrite <- !app_assoc.
  - intros [= <- <-]. exists [info; Fetch rq], [].
    split; [|reflexivity].
    cbn [trace add_event after_fetch]. now rewrite <- app_assoc.
Qed.

(** C2, amended: take the loop at any of its moments, when the positions
    [pre] have been visited and the mapping is [m].  In the rest of the run
    no batch query is issued for an identifier that is a key of [m], so an
    identifier that is a key when its position is visited is skipped, and an
    identifier is queried at most once after it was resolved; and at most
    one query is issued per position left.  A position whose identifier is
    not a key when it is visited is queried (when the identifier can be
    written into the URL), also when that identifier was queried before:
    queries are not bounded by the number of distinct identifiers. *)
Theorem resolve_loop_never_queries_a_key :
  forall (env : environment) (CONFIG : config) (total i : nat)
         (pre post : list value) (m0 m : Map) (s0 s : state)
         (r : result Map) (s' : state),
    resolve_loop env CONFIG total i pre m0 s0 = (Ok m, s) ->
    resolve_loop env CONFIG total i (pre ++ post)%list m0 s0 = (r, s') ->
    exists t,
      trace s' = (trace s ++ t)%list
      /\ (forall id pid,
             Map_has m pid = true -> ~ In (Fetch (BatchUrl id pid)) t)
      /\ List.length (batch_queries t) <= List.length post
      /\ (forall pid post',
             post = pid :: post' ->
             Map_has m pid = false -> stringifiable pid = true ->
             exists qs, batch_queries t = pid :: qs).
Proof.
  intros env CONFIG total i pre post m0 m s0 s r s' Hpre Hall.
  rewrite resolve_loop_app, Hpre in Hall.
  destruct (resolve_loop_rest _ _ _ _ _ _ _ _ _ Hall)
    as (t & Ht & _ & _ & Hq & Hn & _).
  exists t. split; [exact Ht|]. split; [exact Hq|]. split; [exact Hn|].
  intros pid post' -> Hhas Hstr.
  destruct (resolve_loop_head_query _ _ _ _ _ _ _ _ _ _ Hhas Hstr Hall)
    as (t' & qs & Ht' & Hqs).
  assert (t' = t) by (rewrite Ht in Ht'; now apply app_inv_head in Ht').
  subst t'. now exists qs.
Qed.

Lemma resolve_loop_never_queries_a_key_witness :
  exists t,
    trace (snd (resolve_loop env_A CONFIG_X 3 0
                  ([VStr "p1"] ++ [VStr "p2"; VStr "p3"])%list
                  Map_new initial_state))
    = (trace (snd (resolve_loop env_A CONFIG_X 3 0 [VStr "p1"]
                     Map_new initial_state)) ++ t)%list
    /\ (forall id pid,
           Map_has [(VStr "p1", VStr "u1"); (VStr "p2", VStr "u2")] pid = true ->
           ~ In (Fetch (BatchUrl id pid)) t)
    /\ List.length (batch_queries t) <= 2
    /\ (forall pid post',
           [VStr "p2"; VStr "p3"] = pid :: post' ->
           Map_has [(VStr "p1", VStr "u1"); (VStr "p2", VStr "u2")] pid = false ->
           stringifiable pid = true ->
           exists qs, batch_queries t = pid :: qs).
Proof.
  apply (resolve_loop_never_queries_a_key
           env_A CONFIG_X 3 0 [VStr "p1"] [VStr "p2"; VStr "p3"] Map_new
           [(VStr "p1", VStr "u1"); (VStr "p2", VStr "u2")] initial_state
           (snd (resolve_loop env_A CONFIG_X 3 0 [VStr "p1"]
                   Map_new initial_state))
           (fst (resolve_loop env_A CONFIG_X 3 0
                   ([VStr "p1"] ++ [VStr "p2"; VStr "p3"])%list
                   Map_new initial_state))).
  - vm_compute. reflexivity.
  - vm_compute. reflexivity.
Defined.

(** ** The sequential retriever (C4) *)

Lemma downloadFile_run (env : environment) (j : job) (s : state) :
  DownloaderService.downloadFile env j s
  = if job_fails env (fetches s) j then
      (Throw match network env (fetches s) (ImageUrl (url j)) with
             | None => NetworkError
             | Some resp =>
                 if negb (ok resp) then Error_image_http (status resp)
                 else NetworkError
             end,
       after_fetch s (ImageUrl (url j)))
    else
      (Ok tt,
       add_event (after_fetch s (ImageUrl (url j))) (AnchorClick (filename j))).
Proof.
  unfold DownloaderService.downloadFile, job_fails, bind, fetch.
  destruct (network env (fetches s) (ImageUrl (url j))) as [resp|];
    [|reflexivity].
  destruct (ok resp); simpl; [|reflexivity].
  unfold response_blob. destruct (blob resp); reflexivity.
Qed.

Lemma download_loop_cons (env : environment) (CONFIG : config)
    (total i : nat) (j : job) (rest : list job) (failed : list string)
    (s : state) :
  exists t,
    image_fetches t = [url j]
    /\ saved_files t = (if job_fails env (fetches s) j then []
                        else [filename j])
    /\ forallb (fun e => negb (is_summary_event e)) t = true
    /\ download_loop env CONFIG total i (j :: rest) failed s
       = download_loop env CONFIG total (S i) rest
           (if job_fails env (fetches s) j
            then (failed ++ [filename j])%list else failed)
           {| downloadJobs := downloadJobs s;
              fetches := S (fetches s);
              trace := (trace s ++ t)%list |}.
Proof.
  cbn [download_loop].
  unfold bind at 1. unfold Logger.info, Logger._log, emit.
  unfold bind at 1. unfold try_catch. unfold bind at 1.
  rewrite downloadFile_run. cbn [fetches add_event].
  set (info := Console_log
                 ("%cINFO: " ++ "Downloading " ++ String_of_nat (i + 1) ++ "/"
                  ++ String_of_nat total ++ ": " ++ filename j)
                 "color: #03A9F4;").
  set (wait := SetTimeout (DOWNLOAD_DELAY_MS CONFIG)).
  destruct (job_fails env (fetches s) j).
  - match goal with |- context [Some ?e] => set (err := e) end.
    exists [info; Fetch (ImageUrl (url j));
            Console_error ("ERROR: " ++ "Failed to download " ++ filename j)
                          (Some err);
            wait].
    split; [reflexivity|]. split; [reflexivity|]. split; [reflexivity|].
    unfold bind, Logger.error, delay, emit, ret, add_event, after_fetch.
    cbn [downloadJobs fetches trace]. rewrite <- !app_assoc. reflexivity.
  - exists [info; Fetch (ImageUrl (url j)); AnchorClick (filename j); wait].
    split; [reflexivity|]. split; [reflexivity|]. split; [reflexivity|].
    unfold bind, delay, emit, ret, add_event, after_fetch.
    cbn [downloadJobs fetches trace]. rewrite <- !app_assoc. reflexivity.
Qed.

Lemma download_loop_run (env : environment) (CONFIG : config) (total : nat)
    (jobs : list job) :
  forall (i : nat) (failed : list string) (s : state),
    exists t,
      download_loop env CONFIG total i jobs failed s
      = (Ok (failed ++ failures env (fetches s) jobs)%list,
         {| downloadJobs := downloadJobs s;
            fetches := fetches s + List.length jobs;
            trace := (trace s ++ t)%list |})
      /\ image_fetches t = map url jobs
      /\ saved_files t = successes env (fetches s) jobs
      /\ forallb (fun e => negb (is_summary_event e)) t = true.
Proof.
  induction jobs as [|j rest IH]; intros i failed s.
  - exists []. simpl. unfold ret. rewrite !app_nil_r, Nat.add_0_r.
    destruct s; auto.
  - destruct (download_loop_cons env CONFIG total i j rest failed s)
      as (t1 & Hf1 & Hs1 & Hq1 & ->).
    match goal with |- context [download_loop _ _ _ _ _ ?f ?s1] =>
      destruct (IH (S i) f s1) as (t2 & -> & Hf2 & Hs2 & Hq2) end.
    cbn [downloadJobs fetches trace] in *.
    exists (t1 ++ t2)%list.
    rewrite image_fetches_app, saved_files_app, forallb_app, Hf1, Hf2, Hs1,
      Hs2, Hq1, Hq2.
    cbn [failures successes map List.length].
    destruct (job_fails env (fetches s) j);
      rewrite <- ?app_assoc, Nat.add_succ_r; simpl; auto.
Qed.

Lemma successes_failures_length (env : environment) (jobs : list job) :
  forall n : nat,
    List.length (successes env n jobs) + List.length (failures env n jobs)
    = List.length jobs.
Proof.
  induction jobs as [|j rest IH]; intros n; simpl; [reflexivity|].
  destruct (job_fails env n j); simpl; rewrite <- (IH (S n)); lia.
Qed.

Lemma String_of_Z_of_nat (n : nat) : String_of_Z (Z.of_nat n) = String_of_nat n.
Proof.
  unfold String_of_Z.
  destruct (Z.ltb_spec (Z.of_nat n) 0) as [H|H]; [lia|].
  now rewrite Nat2Z.id.
Qed.

Lemma warn_each_run (failed : list string) :
  forall s : state,
    exists t,
      warn_each failed s
      = (Ok tt, {| downloadJobs := downloadJobs s;
                   fetches := fetches s;
                   trace := (trace s ++ t)%list |})
      /\ forallb (fun e => negb (is_retrieval_event e)) t = true.
Proof.
  induction failed as [|f rest IH]; intros s.
  - exists []. simpl. unfold ret. rewrite app_nil_r. destruct s; auto.
  - cbn [warn_each]. unfold bind, Logger.warn, Logger._log, emit.
    destruct (IH (add_event s (Console_log ("%cWARN: " ++ "  - " ++ f)
                                           "color: #FFC107;")))
      as (t & -> & Ht).
    eexists (_ :: t). cbn [downloadJobs fetches trace add_event].
    rewrite <- app_assoc. split; [reflexivity|exact Ht].
Qed.

(** The summary opens its group and prints, first, the number of jobs that
    did not fail and the number of jobs. *)
Lemma summary_run (jobs : list job) (failed : list string) (s : state) :
  List.length failed <= List.length jobs ->
  exists t,
    summary jobs failed s
    = (Ok tt,
       {| downloadJobs := downloadJobs s;
          fetches := fetches s;
          trace :=
            (trace s
             ++ Console_group "Summary"
             :: Console_log
                  ("%cSUCCESS: Process complete. Successfully downloaded "
                   ++ String_of_nat (List.length jobs - List.length failed)
                   ++ " of " ++ String_of_nat (List.length jobs)
                   ++ " files.")
                  success_styles
             :: t)%list |})
    /\ forallb (fun e => negb (is_retrieval_event e)) t = true.
Proof.
  intros Hle. unfold summary.
  replace (Z.of_nat (List.length jobs) - Z.of_nat (List.length failed))%Z
    with (Z.of_nat (List.length jobs - List.length failed)) by lia.
  rewrite String_of_Z_of_nat.
  unfold bind at 1. unfold Logger.group, emit.
  unfold bind at 1. unfold Logger.success, Logger._log, emit.
  unfold bind at 1.
  destruct (0 <? List.length failed)%nat.
  - unfold bind at 1. unfold Logger.warn, Logger._log, emit.
    match goal with |- context [warn_each failed ?s1] =>
      destruct (warn_each_run failed s1) as (t & -> & Ht) end.
    eexists (_ :: t ++ [Console_groupEnd])%list.
    unfold Logger.groupEnd, emit, add_event.
    cbn [downloadJobs fetches trace]. split.
    + repeat (rewrite <- app_assoc; cbn [app]). reflexivity.
    + cbn [forallb]. rewrite forallb_app, Ht. reflexivity.
  - exists [Console_groupEnd].
    unfold ret, Logger.groupEnd, emit, add_event.
    cbn [downloadJobs fetches trace]. split; [|reflexivity].
    repeat (rewrite <- app_assoc; cbn [app]). reflexivity.
Qed.

(** C4: whatever jobs fail, the download loop never throws and attempts
    every job, in job order; the failure list it returns holds the file
    names of exactly the failing jobs, the files saved are those of the
    other jobs, and the two counts add up to the number of jobs; the summary
    then reports the number of saved files and the number of jobs. *)
Theorem download_loop_fail_soft :
  forall (env : environment) (CONFIG : config) (jobs : list job) (s : state),
    let failed := failures env (fetches s) jobs in
    let saved := successes env (fetches s) jobs in
    exists t s' t' s'',
      download_loop env CONFIG (List.length jobs) 0 jobs [] s = (Ok failed, s')
      /\ trace s' = (trace s ++ t)%list
      /\ image_fetches t = map url jobs
      /\ saved_files t = saved
      /\ List.length saved + List.length failed = List.length jobs
      /\ summary jobs failed s' = (Ok tt, s'')
      /\ trace s''
         = (trace s'
            ++ Console_group "Summary"
            :: Console_log
                 ("%cSUCCESS: Process complete. Successfully downloaded "
                  ++ String_of_nat (List.length saved)
                  ++ " of " ++ String_of_nat (List.length jobs) ++ " files.")
                 success_styles
            :: t')%list.
Proof.
  intros env CONFIG jobs s failed saved.
  destruct (download_loop_run env CONFIG (List.length jobs) jobs 0 [] s)
    as (t & Hrun & Hfetch & Hsaved & _).
  pose proof (successes_failures_length env jobs (fetches s)) as Hlen.
  fold failed saved in Hlen.
  assert (Hle : List.length failed <= List.length jobs) by lia.
  match type of Hrun with _ = (_, ?s1) =>
    destruct (summary_run jobs failed s1 Hle) as (t' & Hsum & _) end.
  replace (List.length jobs - List.length failed) with (List.length saved)
    in Hsum by lia.
  do 4 eexists.
  split; [exact Hrun|]. split; [reflexivity|]. split; [exact Hfetch|].
  split; [exact Hsaved|]. split; [exact Hlen|].
  split; [exact Hsum|]. reflexivity.
Qed.

(** ** Discovery errors (C5) *)

Lemma discovery_no_retrieval (t : list event) :
  forallb is_discovery_event t = true ->
  image_fetches t = [] /\ saved_files t = []
  /\ existsb is_summary_event t = false.
Proof.
  induction t as [|e t IH]; simpl; [auto|].
  intros H. apply andb_true_iff in H. destruct H as [He Ht].
  destruct (IH Ht) as (H1 & H2 & H3).
  unfold is_discovery_event in He. apply andb_true_iff in He.
  destruct He as [Hr Hs]. apply negb_true_iff in Hr, Hs. rewrite Hs.
  destruct e as [| | | |[| |]| |]; simpl in *; auto; discriminate.
Qed.

Lemma step1_run (env : environment) (CONFIG : config) (s : state)
    (r : result (list value * Map)) (s1 : state) :
  step1 env CONFIG s = (r, s1) ->
  exists t,
    trace s1 = (trace s ++ t)%list
    /\ downloadJobs s1 = downloadJobs s
    /\ forallb is_discovery_event t = true.
Proof.
  unfold step1.
  unfold bind at 1. unfold Logger.group, emit.
  unfold bind at 1. rewrite getPageManifest_run.
  set (rq := ManifestUrl (BOOK_ID_text CONFIG)).
  set (group := Console_group "STEP 1: Fetching Page Links").
  match goal with |- match ?x with Ok _ => _ | Throw _ => _ end = _ -> _ =>
    destruct x as [allPids|e] end.
  - unfold bind at 1. unfold Logger.info, Logger._log, emit.
    set (info := Console_log _ _).
    unfold bind at 1.
    destruct (resolve_loop env CONFIG (List.length allPids) 0 allPids Map_new
                (add_event (after_fetch (add_event s group) rq) info))
      as [rm s2] eqn:Hloop.
    destruct (resolve_loop_rest _ _ _ _ _ _ _ _ _ Hloop)
      as (t & Ht & Hj & Hd & _).
    cbn [trace downloadJobs add_event after_fetch] in Ht, Hj.
    destruct rm as [m|e].
    + unfold bind, Logger.groupEnd, emit, ret. intros [= <- <-].
      exists (group :: Fetch rq :: info :: t ++ [Console_groupEnd])%list.
      cbn [trace downloadJobs add_event]. rewrite Ht, Hj.
      split; [|split; [reflexivity|]].
      * repeat (rewrite <- app_assoc; cbn [app]). reflexivity.
      * cbn [forallb]. rewrite forallb_app, Hd. reflexivity.
    + intros [= <- <-].
      exists (group :: Fetch rq :: info :: t)%list.
      rewrite Ht, Hj. split; [|split; [reflexivity|]].
      * repeat (rewrite <- app_assoc; cbn [app]). reflexivity.
      * cbn [forallb]. rewrite Hd. reflexivity.
  - intros [= <- <-]. exists [group; Fetch rq].
    cbn [trace downloadJobs add_event after_fetch].
    rewrite <- app_assoc. auto.
Qed.

Lemma main_run (env : environment) (CONFIG : config) (s : state) :
  BOOK_ID_truthy CONFIG = true ->
  main env CONFIG s
  = try_catch
      (r <- step1 env CONFIG ;; step2 env CONFIG (fst r) (snd r))
      (fun e =>
         Logger.error "A critical error occurred and the script had to stop."
                      (Some e))
      (try_entry CONFIG s).
Proof.
  intros H. unfold main. rewrite H. cbn [negb].
  unfold bind, Logger.group, Logger.info, Logger._log, Logger.groupEnd, emit,
    set_downloadJobs, add_event, try_entry.
  cbn [downloadJobs fetches trace].
  repeat (rewrite <- app_assoc; cbn [app]). reflexivity.
Qed.

(** C5: when an error is thrown in step 1, by the manifest fetch or by any
    batch fetch, [main] ends without throwing: [downloadJobs] is still
    empty, no image is fetched, no file is saved and no summary is printed;
    the last thing the run does is to report the error. *)
Theorem discovery_error_aborts :
  forall (env : environment) (CONFIG : config) (s0 s1 : state) (e : error),
    BOOK_ID_truthy CONFIG = true ->
    step1 env CONFIG (try_entry CONFIG s0) = (Throw e, s1) ->
    exists t,
      main env CONFIG s0
      = (Ok tt,
         {| downloadJobs := [];
            fetches := fetches s1;
            trace :=
              (trace s0 ++ t
               ++ [Console_error
                     "ERROR: A critical error occurred and the script had to stop."
                     (Some e)])%list |})
      /\ image_fetches t = []
      /\ saved_files t = []
      /\ existsb is_summary_event t = false.
Proof.
  intros env CONFIG s0 s1 e Hid Hstep.
  rewrite (main_run env CONFIG s0 Hid).
  unfold try_catch, bind. rewrite Hstep.
  destruct (step1_run _ _ _ _ _ Hstep) as (t & Ht & Hj & Hd).
  set (prologue := trace (try_entry CONFIG s0)) in Ht.
  assert (Hpro : exists p, prologue = (trace s0 ++ p)%list
                           /\ forallb is_discovery_event p = true).
  { eexists. split; [reflexivity|reflexivity]. }
  destruct Hpro as (p & Hp & Hpd).
  exists (p ++ t)%list. split.
  - unfold Logger.error, emit, add_event. rewrite Ht, Hj, Hp.
    cbn [try_entry downloadJobs]. now rewrite <- !app_assoc.
  - apply discovery_no_retrieval. now rewrite forallb_app, Hpd, Hd.
Qed.

Lemma discovery_error_aborts_witness :
  exists t,
    main env_500 CONFIG_X initial_state
    = (Ok tt,
       {| downloadJobs := [];
          fetches := 1;
          trace :=
            ([] ++ t
             ++ [Console_error
                   "ERROR: A critical error occurred and the script had to stop."
                   (Some (Error_manifest_http 500))])%list |})
    /\ image_fetches t = []
    /\ saved_files t = []
    /\ existsb is_summary_event t = false.
Proof.
  exact (discovery_error_aborts
           env_500 CONFIG_X initial_state
           (snd (step1 env_500 CONFIG_X (try_entry CONFIG_X initial_state)))
           (Error_manifest_http 500) eq_refl eq_refl).
Defined.

(** ** Decimal digits *)

Arguments digit_char d : simpl never.
Arguments is_digit c : simpl never.
Arguments digit_value c : simpl never.

Lemma digit_char_spec (d : nat) :
  d < 10 -> is_digit (digit_char d) = true /\ digit_value (digit_char d) = d.
Proof.
  intros H.
  do 10 (destruct d as [|d]; [split; reflexivity|]).
  lia.
Qed.

Lemma digit_value_bound (c : ascii) : is_digit c = true -> digit_value c <= 9.
Proof.
  unfold is_digit, digit_value. intros H.
  apply andb_true_iff in H. destruct H as [_ H].
  apply Nat.leb_le in H. lia.
Qed.

Lemma number_value_bound (s : string) :
  all_digits s = true -> number_value s < 10 ^ String.length s.
Proof.
  induction s as [|c rest IH]; simpl; [lia|].
  intros H. apply andb_true_iff in H. destruct H as [Hc Hrest].
  specialize (IH Hrest). apply digit_value_bound in Hc.
  nia.
Qed.

Lemma digits_from_all_digits (fuel : nat) :
  forall (n : nat) (acc : string),
    all_digits acc = true -> all_digits (digits_from fuel n acc) = true.
Proof.
  induction fuel as [|fuel IH]; intros n acc Hacc; cbn [digits_from];
    [exact Hacc|].
  assert (Hd : all_digits (String (digit_char (n mod 10)) acc) = true).
  { cbn [all_digits]. rewrite Hacc.
    destruct (digit_char_spec (n mod 10)) as [-> _]; [|reflexivity].
    apply Nat.mod_upper_bound. lia. }
  destruct (n <? 10)%nat; [exact Hd | now apply IH].
Qed.

Lemma digits_from_value (fuel : nat) :
  forall (n : nat) (acc : string),
    n < fuel ->
    number_value (digits_from fuel n acc)
    = n * 10 ^ String.length acc + number_value acc.
Proof.
  induction fuel as [|fuel IH]; intros n acc Hn; [lia|].
  cbn [digits_from].
  destruct (digit_char_spec (n mod 10)) as [_ Hv];
    [apply Nat.mod_upper_bound; lia|].
  destruct (Nat.ltb_spec n 10) as [Hlt|Hge].
  - cbn [number_value]. rewrite Hv. now rewrite Nat.mod_small.
  - rewrite IH.
    + cbn [number_value String.length]. rewrite Hv.
      pose proof (Nat.div_mod_eq n 10) as Hdm.
      remember (n / 10) as q. remember (n mod 10) as r.
      rewrite Nat.pow_succ_r'. rewrite Hdm.
      generalize (10 ^ String.length acc). intros p. nia.
    + pose proof (Nat.div_lt n 10). lia.
Qed.

Lemma digits_from_length_ge (fuel : nat) :
  forall (n : nat) (acc : string),
    String.length acc <= String.length (digits_from fuel n acc).
Proof.
  induction fuel as [|fuel IH]; intros n acc; cbn [digits_from]; [lia|].
  destruct (n <? 10)%nat; cbn [String.length]; [lia|].
  specialize (IH (n / 10) (String (digit_char (n mod 10)) acc)).
  cbn [String.length] in IH. lia.
Qed.

Lemma digits_from_length_mono (fuel : nat) :
  forall (fuel' n m : nat) (acc acc' : string),
    n <= m -> n < fuel -> m < fuel' ->
    String.length acc <= String.length acc' ->
    String.length (digits_from fuel n acc)
    <= String.length (digits_from fuel' m acc').
Proof.
  induction fuel as [|fuel IH]; intros fuel' n m acc acc' Hnm Hn Hm Hacc;
    [lia|].
  destruct fuel' as [|fuel']; [lia|].
  cbn [digits_from].
  destruct (Nat.ltb_spec n 10) as [Hn10|Hn10].
  - destruct (m <? 10)%nat.
    + cbn [String.length]. lia.
    + pose proof (digits_from_length_ge fuel' (m / 10)
                    (String (digit_char (m mod 10)) acc')) as H.
      cbn [String.length] in *. lia.
  - destruct (Nat.ltb_spec m 10) as [Hm10|Hm10]; [lia|].
    apply IH.
    + apply Nat.Div0.div_le_mono. exact Hnm.
    + pose proof (Nat.div_lt n 10). lia.
    + pose proof (Nat.div_lt m 10). lia.
    + cbn [String.length]. lia.
Qed.

Lemma String_of_nat_all_digits (n : nat) : all_digits (String_of_nat n) = true.
Proof. apply digits_from_all_digits. reflexivity. Qed.

Lemma String_of_nat_value (n : nat) : number_value (String_of_nat n) = n.
Proof.
  unfold String_of_nat. rewrite digits_from_value by lia.
  cbn [String.length number_value]. rewrite Nat.pow_0_r. lia.
Qed.

Lemma String_of_nat_length_mono (n m : nat) :
  n <= m ->
  String.length (String_of_nat n) <= String.length (String_of_nat m).
Proof.
  intros H. apply digits_from_length_mono; cbn [String.length]; lia.
Qed.

Lemma repeat_char_length (c : ascii) (n : nat) :
  String.length (repeat_char c n) = n.
Proof. induction n; simpl; congruence. Qed.

Lemma string_length_app (a b : string) :
  String.length (a ++ b) = String.length a + String.length b.
Proof. induction a; simpl; congruence. Qed.

Lemma zeros_value (k : nat) (s : string) :
  number_value (repeat_char "0" k ++ s) = number_value s
  /\ all_digits (repeat_char "0" k ++ s) = all_digits s.
Proof.
  induction k as [|k [IHv IHd]]; simpl; [auto|].
  rewrite IHv, IHd. split; reflexivity.
Qed.

(** The padded page number of a position of the manifest: a digit string of
    the padding width that writes the 1-based position. *)
Lemma pageNumber_of_spec (allPids : list value) (i : nat) :
  i < List.length allPids ->
  String.length (pageNumber_of allPids i) = padding_of allPids
  /\ all_digits (pageNumber_of allPids i) = true
  /\ number_value (pageNumber_of allPids i) = i + 1.
Proof.
  intros Hi. unfold pageNumber_of, padding_of, padStart.
  pose proof (String_of_nat_length_mono (i + 1) (List.length allPids)) as Hle.
  specialize (Hle ltac:(lia)).
  set (w := String.length (String_of_nat (List.length allPids))) in *.
  set (str := String_of_nat (i + 1)) in *.
  destruct (Nat.leb_spec w (String.length str)) as [H|H].
  - split; [lia|]. split.
    + apply String_of_nat_all_digits.
    + apply String_of_nat_value.
  - destruct (zeros_value (w - String.length str) str) as [Hv Hd].
    rewrite string_length_app, repeat_char_length, Hv, Hd.
    split; [lia|]. split.
    + apply String_of_nat_all_digits.
    + apply String_of_nat_value.
Qed.

(** ** Lexicographic order of file names *)

Lemma ascii_compare_refl (c : ascii) : Ascii.compare c c = Eq.
Proof. unfold Ascii.compare. apply N.compare_refl. Qed.

Lemma string_compare_refl (s : string) : (s ?= s) = Eq.
Proof.
  induction s as [|c rest IH]; simpl; [reflexivity|].
  now rewrite ascii_compare_refl.
Qed.

Lemma string_compare_prefix (p a b : string) : (p ++ a ?= p ++ b) = (a ?= b).
Proof.
  induction p as [|c rest IH]; simpl; [reflexivity|].
  now rewrite ascii_compare_refl.
Qed.

Lemma string_compare_suffix (s : string) :
  forall a b : string,
    String.length a = String.length b -> (a ++ s ?= b ++ s) = (a ?= b).
Proof.
  induction a as [|c a IH]; intros [|c' b] Hlen; simpl in *;
    try discriminate.
  - apply string_compare_refl.
  - destruct (Ascii.compare c c'); auto.
Qed.

Lemma ascii_compare_digits (c c' : ascii) :
  is_digit c = true -> is_digit c' = true ->
  Ascii.compare c c' = (digit_value c ?= digit_value c')%nat.
Proof.
  unfold is_digit, digit_value, Ascii.compare, nat_of_ascii.
  intros H H'.
  apply andb_true_iff in H, H'. destruct H as [H _], H' as [H' _].
  apply Nat.leb_le in H, H'.
  rewrite N2Nat.inj_compare.
  set (x := N.to_nat (N_of_ascii c)) in *.
  set (y := N.to_nat (N_of_ascii c')) in *.
  destruct (Nat.compare_spec x y) as [E|E|E];
    symmetry; [apply Nat.compare_eq_iff | apply Nat.compare_lt_iff
               | apply Nat.compare_gt_iff]; lia.
Qed.

Lemma string_compare_digits :
  forall a b : string,
    String.length a = String.length b ->
    all_digits a = true -> all_digits b = true ->
    (a ?= b) = (number_value a ?= number_value b)%nat.
Proof.
  induction a as [|c a IH]; intros [|c' b] Hlen Ha Hb; simpl in *;
    try discriminate; [reflexivity|].
  apply andb_true_iff in Ha, Hb.
  destruct Ha as [Hc Ha], Hb as [Hc' Hb].
  injection Hlen as Hlen.
  rewrite (ascii_compare_digits c c' Hc Hc'), (IH b Hlen Ha Hb).
  pose proof (number_value_bound a Ha) as Hva.
  pose proof (number_value_bound b Hb) as Hvb.
  rewrite Hlen in *.
  set (p := 10 ^ String.length b) in *.
  set (x := digit_value c) in *. set (y := digit_value c') in *.
  set (u := number_value a) in *. set (v := number_value b) in *.
  destruct (Nat.compare_spec x y) as [E|E|E].
  - subst y. destruct (Nat.compare_spec u v) as [E'|E'|E'];
      symmetry; [apply Nat.compare_eq_iff | apply Nat.compare_lt_iff
                 | apply Nat.compare_gt_iff]; nia.
  - symmetry. apply Nat.compare_lt_iff. nia.
  - symmetry. apply Nat.compare_gt_iff. nia.
Qed.

Lemma string_app_assoc (a b c : string) : (a ++ b) ++ c = a ++ (b ++ c).
Proof. induction a; simpl; congruence. Qed.

(** File names of two positions of the manifest compare as the positions. *)
Lemma filename_compare (CONFIG : config) (allPids : list value) (m : Map)
    (i j : nat) :
  i < List.length allPids -> j < List.length allPids ->
  (filename (job_at CONFIG allPids m i) ?= filename (job_at CONFIG allPids m j))
  = (i ?= j)%nat.
Proof.
  intros Hi Hj. unfold job_at. cbn [filename].
  destruct (pageNumber_of_spec allPids i Hi) as (Li & Di & Vi).
  destruct (pageNumber_of_spec allPids j Hj) as (Lj & Dj & Vj).
  rewrite string_compare_prefix, string_compare_prefix.
  rewrite string_compare_suffix by congruence.
  rewrite string_compare_digits by congruence.
  rewrite Vi, Vj.
  destruct (Nat.compare_spec i j) as [E|E|E];
    [apply Nat.compare_eq_iff | apply Nat.compare_lt_iff
     | apply Nat.compare_gt_iff]; lia.
Qed.

Lemma filename_injective (CONFIG : config) (allPids : list value) (m : Map)
    (i j : nat) :
  i < List.length allPids -> j < List.length allPids ->
  filename (job_at CONFIG allPids m i) = filename (job_at CONFIG allPids m j) ->
  i = j.
Proof.
  intros Hi Hj H.
  pose proof (filename_compare CONFIG allPids m i j Hi Hj) as Hc.
  rewrite H, string_compare_refl in Hc.
  symmetry in Hc. now apply Nat.compare_eq_iff in Hc.
Qed.

(** ** The job builder (C1, C8) *)

Lemma mapi_from_seq {A B : Type} (f : A -> nat -> B) (d : A) (l : list A) :
  forall k : nat,
    mapi_from f k l
    = map (fun i => f (nth (i - k) l d) i) (seq k (List.length l)).
Proof.
  induction l as [|x rest IH]; intros k; simpl; [reflexivity|].
  rewrite Nat.sub_diag. f_equal.
  rewrite IH. apply map_ext_in. intros i Hi. apply in_seq in Hi.
  replace (i - k) with (S (i - S k)) by lia. reflexivity.
Qed.

Lemma filter_Boolean_map {A B : Type} (p : A -> bool) (g : A -> B)
    (l : list A) :
  filter_Boolean (map (fun x => if negb (p x) then None else Some (g x)) l)
  = map g (filter p l).
Proof.
  induction l as [|x rest IH]; simpl; [reflexivity|].
  destruct (p x); simpl; now rewrite IH.
Qed.

Lemma build_downloadJobs_positions (CONFIG : config) (allPids : list value)
    (m : Map) :
  build_downloadJobs CONFIG allPids m
  = map (job_at CONFIG allPids m)
        (filter (resolved_at allPids m) (seq 0 (List.length allPids))).
Proof.
  unfold build_downloadJobs.
  rewrite (mapi_from_seq _ VUndefined).
  rewrite <- filter_Boolean_map. f_equal.
  apply map_ext. intros i. rewrite Nat.sub_0_r. reflexivity.
Qed.

Lemma count_one {A : Type} (p : A -> bool) (x : A) (l : list A) :
  NoDup l -> In x l -> p x = true ->
  (forall y, In y l -> p y = true -> y = x) ->
  List.length (filter p l) = 1.
Proof.
  induction l as [|y rest IH]; intros Hnd Hin Hpx Huniq; [contradiction|].
  inversion Hnd as [|y' l' Hnotin Hnd']; subst.
  simpl. destruct Hin as [-> | Hin].
  - rewrite Hpx. simpl. f_equal.
    destruct (filter p rest) as [|z zs] eqn:Hf; [reflexivity|].
    assert (Hz : In z (filter p rest)) by (rewrite Hf; now left).
    apply filter_In in Hz. destruct Hz as [Hz Hpz].
    assert (z = x) by (apply Huniq; [now right | exact Hpz]).
    subst z. contradiction.
  - destruct (p y) eqn:Hpy.
    + assert (y = x) by (apply Huniq; [now left | exact Hpy]).
      subst y. contradiction.
    + apply IH; auto. intros z Hz. apply Huniq. now right.
Qed.

(** How many jobs carry the file name of a position: one when the position
    is resolved, none otherwise. *)
Lemma filename_count (CONFIG : config) (allPids : list value) (m : Map)
    (i : nat) :
  i < List.length allPids ->
  List.length
    (filter (fun j => filename j =? filename (job_at CONFIG allPids m i))
            (build_downloadJobs CONFIG allPids m))
  = if resolved_at allPids m i then 1 else 0.
Proof.
  intros Hi. rewrite build_downloadJobs_positions.
  set (job_of := job_at CONFIG allPids m).
  set (resolved := resolved_at allPids m).
  set (N := List.length allPids) in *.
  assert (Hmap : forall l,
             List.length (filter (fun j => filename j =? filename (job_of i))
                                 (map job_of l))
             = List.length
                 (filter (fun k => filename (job_of k)
                                   =? filename (job_of i)) l)).
  { induction l as [|k l IH]; [reflexivity|].
    cbn [map filter].
    destruct (filename (job_of k) =? filename (job_of i));
      cbn [List.length]; now rewrite IH. }
  rewrite Hmap.
  destruct (resolved i) eqn:Hres.
  - apply (count_one _ i).
    + apply NoDup_filter, seq_NoDup.
    + apply filter_In. split; [apply in_seq; lia | exact Hres].
    + apply String.eqb_refl.
    + intros k Hk Heq. apply filter_In in Hk. destruct Hk as [Hk _].
      apply in_seq in Hk. apply String.eqb_eq in Heq.
      apply (filename_injective CONFIG allPids m k i); [lia | exact Hi|].
      exact Heq.
  - destruct (filter (fun k => filename (job_of k) =? filename (job_of i))
                     (filter resolved (seq 0 N))) as [|k ks] eqn:Hf;
      [reflexivity|].
    assert (Hk : In k (k :: ks)) by now left.
    rewrite <- Hf in Hk. apply filter_In in Hk. destruct Hk as [Hk Heq].
    apply filter_In in Hk. destruct Hk as [Hk Hrk].
    apply in_seq in Hk. apply String.eqb_eq in Heq.
    assert (k = i)
      by (apply (filename_injective CONFIG allPids m k i); [lia|exact Hi|];
          exact Heq).
    subst k. congruence.
Qed.

(** C1: the jobs are, in manifest order, the jobs of the positions whose
    identifier has a resolved URL, one each, and none for the other
    positions, so that jobs and unresolved positions add up to the length of
    the manifest; the file name of position [i] (1-based) is the prefix, a
    hyphen, [i] written with as many digits as the length of the manifest
    has, zero-padded, and [.png], and it is the name of exactly one job;
    and file names compare, as strings, like their positions. *)
Theorem build_downloadJobs_spec :
  forall (CONFIG : config) (allPids : list value) (signedUrlMap : Map),
    let N := List.length allPids in
    let jobs := build_downloadJobs CONFIG allPids signedUrlMap in
    let job_of := job_at CONFIG allPids signedUrlMap in
    let resolved := resolved_at allPids signedUrlMap in
    jobs = map job_of (filter resolved (seq 0 N))
    /\ List.length jobs
       + List.length (filter (fun i => negb (resolved i)) (seq 0 N)) = N
    /\ (forall i, i < N ->
          filename (job_of i)
          = FILENAME_PREFIX CONFIG ++ "-" ++ pageNumber_of allPids i ++ ".png"
          /\ String.length (pageNumber_of allPids i)
             = String.length (String_of_nat N)
          /\ all_digits (pageNumber_of allPids i) = true
          /\ number_value (pageNumber_of allPids i) = i + 1)
    /\ (forall i, i < N ->
          List.length
            (filter (fun j => filename j =? filename (job_of i)) jobs)
          = if resolved i then 1 else 0)
    /\ (forall i j, i < N -> j < N ->
          (filename (job_of i) ?= filename (job_of j)) = (i ?= j)%nat).
Proof.
  intros CONFIG allPids m N jobs job_of resolved.
  assert (Hjobs : jobs = map job_of (filter resolved (seq 0 N)))
    by apply build_downloadJobs_positions.
  split; [exact Hjobs|]. split; [|split; [|split]].
  - rewrite Hjobs, length_map, filter_length. apply length_seq.
  - intros i Hi. split; [reflexivity|].
    apply (pageNumber_of_spec allPids i Hi).
  - intros i Hi. rewrite Hjobs.
    assert (Hmap : forall l,
               List.length (filter (fun j => filename j =? filename (job_of i))
                                   (map job_of l))
               = List.length
                   (filter (fun k => filename (job_of k)
                                     =? filename (job_of i)) l)).
    { induction l as [|k l IH]; [reflexivity|].
      cbn [map filter].
      destruct (filename (job_of k) =? filename (job_of i));
        cbn [List.length]; now rewrite IH. }
    rewrite Hmap.
    destruct (resolved i) eqn:Hres.
    + apply (count_one _ i).
      * apply NoDup_filter, seq_NoDup.
      * apply filter_In. split; [apply in_seq; lia | exact Hres].
      * apply String.eqb_refl.
      * intros k Hk Heq. apply filter_In in Hk. destruct Hk as [Hk _].
        apply in_seq in Hk. apply String.eqb_eq in Heq.
        apply (filename_injective CONFIG allPids m k i); [lia | exact Hi|].
        exact Heq.
    + destruct (filter (fun k => filename (job_of k) =? filename (job_of i))
                       (filter resolved (seq 0 N))) as [|k ks] eqn:Hf;
        [reflexivity|].
      assert (Hk : In k (k :: ks)) by now left.
      rewrite <- Hf in Hk. apply filter_In in Hk. destruct Hk as [Hk Heq].
      apply filter_In in Hk. destruct Hk as [Hk Hrk].
      apply in_seq in Hk. apply String.eqb_eq in Heq.
      assert (k = i)
        by (apply (filename_injective CONFIG allPids m k i); [lia|exact Hi|];
            exact Heq).
      subst k. congruence.
  - intros i j Hi Hj. apply filename_compare; assumption.
Qed.

Lemma build_downloadJobs_spec_witness :
  map filename (build_downloadJobs CONFIG_X manifest_B signedUrlMap_B)
  = ["X-01.png"; "X-02.png"; "X-03.png"; "X-05.png"; "X-06.png"; "X-07.png";
     "X-08.png"; "X-10.png"; "X-11.png"; "X-12.png"]
  /\ List.length (build_downloadJobs CONFIG_X manifest_B signedUrlMap_B)
     + 2 = 12
  /\ (filename (job_at CONFIG_X manifest_B signedUrlMap_B 1)
      ?= filename (job_at CONFIG_X manifest_B signedUrlMap_B 9)) = Lt.
Proof.
  destruct (build_downloadJobs_spec CONFIG_X manifest_B signedUrlMap_B)
    as (Hjobs & Hcount & _ & _ & Hord).
  split; [rewrite Hjobs; reflexivity|].
  split; [exact Hcount|].
  apply (Hord 1 9); vm_compute; lia.
Defined.

(** C8: when one identifier stands at two positions of the manifest and has
    a resolved URL, each of the two positions gets its own job: exactly one
    job carries the file name of the first position and exactly one that of
    the second, the first before the second; both carry the URL of the
    identifier, and the two file names differ. *)
Theorem duplicate_identifier_two_jobs :
  forall (CONFIG : config) (allPids : list value) (signedUrlMap : Map)
         (i j : nat) (pid : value),
    i < j -> j < List.length allPids ->
    nth i allPids VUndefined = pid ->
    nth j allPids VUndefined = pid ->
    truthy (Map_get signedUrlMap pid) = true ->
    let jobs := build_downloadJobs CONFIG allPids signedUrlMap in
    let job_i := job_at CONFIG allPids signedUrlMap i in
    let job_j := job_at CONFIG allPids signedUrlMap j in
    (exists before between after,
        jobs = (before ++ job_i :: between ++ job_j :: after)%list)
    /\ List.length (filter (fun k => filename k =? filename job_i) jobs) = 1
    /\ List.length (filter (fun k => filename k =? filename job_j) jobs) = 1
    /\ url job_i = Map_get signedUrlMap pid
    /\ url job_j = Map_get signedUrlMap pid
    /\ filename job_i <> filename job_j.
Proof.
  intros CONFIG allPids m i j pid Hij Hj Hpi Hpj Hurl jobs job_i job_j.
  pose proof (build_downloadJobs_positions CONFIG allPids m) as Hjobs.
  pose proof (filename_count CONFIG allPids m) as Hone.
  assert (Hri : resolved_at allPids m i = true)
    by (unfold resolved_at; now rewrite Hpi).
  assert (Hrj : resolved_at allPids m j = true)
    by (unfold resolved_at; now rewrite Hpj).
  split; [|split; [|split; [|split; [|split]]]].
  - unfold jobs. rewrite Hjobs.
    replace (List.length allPids)
      with (i + (1 + ((j - i - 1) + (1 + (List.length allPids - j - 1)))))
      by lia.
    rewrite !seq_app, !filter_app, !map_app.
    replace (0 + i + 1 + (j - i - 1)) with j by lia.
    replace (0 + i) with i by lia.
    cbn [seq filter]. rewrite Hri, Hrj. cbn [map app].
    do 3 eexists. reflexivity.
  - pose proof (Hone i ltac:(lia)) as H. rewrite Hri in H. exact H.
  - pose proof (Hone j Hj) as H. rewrite Hrj in H. exact H.
  - unfold job_i, job_at. cbn [url]. now rewrite Hpi.
  - unfold job_j, job_at. cbn [url]. now rewrite Hpj.
  - intros Heq.
    apply (filename_injective CONFIG allPids m i j) in Heq; lia.
Qed.

Lemma duplicate_identifier_two_jobs_witness :
  build_downloadJobs CONFIG_X [VStr "p1"; VStr "p2"; VStr "p1"]
                     [(VStr "p1", VStr "u1")]
  = [{| url := VStr "u1"; filename := "X-1.png" |};
     {| url := VStr "u1"; filename := "X-3.png" |}].
Proof.
  destruct (duplicate_identifier_two_jobs
              CONFIG_X [VStr "p1"; VStr "p2"; VStr "p1"]
              [(VStr "p1", VStr "u1")] 0 2 (VStr "p1")
              ltac:(lia) ltac:(simpl; lia) eq_refl eq_refl eq_refl)
    as (_ & _ & _ & _ & _ & _).
  reflexivity.
Defined.

(** * Further properties of the script *)

Lemma fetch_requests_app (t1 t2 : list event) :
  fetch_requests (t1 ++ t2) = (fetch_requests t1 ++ fetch_requests t2)%list.
Proof.
  induction t1 as [|e t1 IH]; [reflexivity|].
  destruct e; cbn [fetch_requests app]; now rewrite ?IH.
Qed.

Lemma timeouts_app (t1 t2 : list event) :
  timeouts (t1 ++ t2) = (timeouts t1 ++ timeouts t2)%list.
Proof.
  induction t1 as [|e t1 IH]; [reflexivity|].
  destruct e; cbn [timeouts app]; now rewrite ?IH.
Qed.

(** ** The download loop, event by event *)

Lemma download_loop_exact (env : environment) (CONFIG : config) (total : nat)
    (jobs : list job) :
  forall (i : nat) (failed : list string) (s : state),
    download_loop env CONFIG total i jobs failed s
    = (Ok (failed ++ failures env (fetches s) jobs)%list,
       {| downloadJobs := downloadJobs s;
          fetches := fetches s + List.length jobs;
          trace := (trace s
                    ++ download_trace env CONFIG total i (fetches s) jobs)%list
       |}).
Proof.
  induction jobs as [|j rest IH]; intros i failed s.
  - cbn [download_loop failures download_trace List.length]. unfold ret.
    rewrite !app_nil_r, Nat.add_0_r. destruct s; reflexivity.
  - cbn [download_loop].
    unfold bind at 1. unfold Logger.info, Logger._log, emit.
    unfold bind at 1. unfold try_catch. unfold bind at 1.
    rewrite downloadFile_run. cbn [fetches add_event].
    cbn [failures download_trace List.length].
    destruct (job_fails env (fetches s) j).
    + unfold bind at 1. unfold Logger.error, emit, ret.
      unfold bind at 1. unfold delay, emit.
      rewrite IH. unfold add_event, after_fetch.
      cbn [downloadJobs fetches trace].
      replace (fetches s + S (List.length rest))
        with (S (fetches s) + List.length rest) by lia.
      rewrite <- !app_assoc. reflexivity.
    + unfold bind at 1. unfold emit, ret.
      unfold bind at 1. unfold delay, emit.
      rewrite IH. unfold add_event, after_fetch.
      cbn [downloadJobs fetches trace].
      replace (fetches s + S (List.length rest))
        with (S (fetches s) + List.length rest) by lia.
      rewrite <- !app_assoc. reflexivity.
Qed.

Lemma warn_each_exact (failed : list string) :
  forall s : state,
    warn_each failed s
    = (Ok tt,
       {| downloadJobs := downloadJobs s;
          fetches := fetches s;
          trace := (trace s
                    ++ map (fun f => Console_log ("%cWARN: " ++ "  - " ++ f)
                                                 "color: #FFC107;")
                           failed)%list |}).
Proof.
  induction failed as [|f rest IH]; intros s.
  - cbn [warn_each map]. unfold ret. rewrite app_nil_r. destruct s; reflexivity.
  - cbn [warn_each map]. unfold bind, Logger.warn, Logger._log, emit.
    rewrite IH. unfold add_event. cbn [downloadJobs fetches trace].
    rewrite <- app_assoc. reflexivity.
Qed.

Lemma summary_exact (jobs : list job) (failed : list string) (s : state) :
  summary jobs failed s
  = (Ok tt,
     {| downloadJobs := downloadJobs s;
        fetches := fetches s;
        trace :=
          (trace s
           ++ [Console_group "Summary";
               Console_log
                 ("%cSUCCESS: " ++ "Process complete. Successfully downloaded "
                  ++ String_of_Z (Z.of_nat (List.length jobs)
                                  - Z.of_nat (List.length failed))
                  ++ " of " ++ String_of_nat (List.length jobs) ++ " files.")
                 success_styles]
           ++ summary_tail failed)%list |}).
Proof.
  unfold summary, summary_tail.
  unfold bind at 1. unfold Logger.group, emit.
  unfold bind at 1. unfold Logger.success, Logger._log, emit.
  unfold bind at 1.
  destruct (0 <? List.length failed)%nat.
  - unfold bind at 1. unfold Logger.warn, Logger._log, emit.
    rewrite warn_each_exact.
    unfold Logger.groupEnd, emit, add_event. cbn [downloadJobs fetches trace].
    repeat (rewrite <- app_assoc; cbn [app]). reflexivity.
  - unfold ret, Logger.groupEnd, emit, add_event.
    cbn [downloadJobs fetches trace].
    repeat (rewrite <- app_assoc; cbn [app]). reflexivity.
Qed.

Lemma step2_exact (env : environment) (CONFIG : config)
    (allPids : list value) (m : Map) (s : state) :
  step2 env CONFIG allPids m s
  = (Ok tt,
     {| downloadJobs := build_downloadJobs CONFIG allPids m;
        fetches := fetches s
                   + List.length (build_downloadJobs CONFIG allPids m);
        trace := (trace s
                  ++ step2_trace env CONFIG allPids m (fetches s))%list |}).
Proof.
  unfold step2, step2_trace. cbv zeta.
  set (jobs := build_downloadJobs CONFIG allPids m).
  unfold bind at 1. unfold set_downloadJobs.
  unfold bind at 1. unfold get_downloadJobs. cbn [downloadJobs].
  unfold bind at 1.
  assert (Hwarn :
    forall s0 : state,
      (if negb (List.length jobs =? List.length allPids)%nat
       then Logger.warn ("Could only resolve URLs for "
                         ++ String_of_nat (List.length jobs) ++ " of "
                         ++ String_of_nat (List.length allPids) ++ " pages.")
       else ret tt) s0
      = (Ok tt,
         {| downloadJobs := downloadJobs s0;
            fetches := fetches s0;
            trace :=
              (trace s0
               ++ (if (List.length jobs =? List.length allPids)%nat then []
                   else [Console_log
                           ("%cWARN: " ++ "Could only resolve URLs for "
                            ++ String_of_nat (List.length jobs) ++ " of "
                            ++ String_of_nat (List.length allPids)
                            ++ " pages.")
                           "color: #FFC107;"]))%list |})).
  { intros s0. destruct (List.length jobs =? List.length allPids)%nat;
      cbn [negb].
    - unfold ret. rewrite app_nil_r. destruct s0; reflexivity.
    - reflexivity. }
  rewrite Hwarn. cbn [downloadJobs fetches trace].
  unfold bind at 1. unfold Logger.group, emit.
  unfold bind at 1. unfold Logger.warn, Logger._log, emit.
  unfold bind at 1. rewrite download_loop_exact.
  unfold bind at 1. unfold Logger.groupEnd, emit.
  rewrite summary_exact.
  unfold add_event. cbn [downloadJobs fetches trace app].
  repeat (rewrite <- app_assoc; cbn [app]). reflexivity.
Qed.

(** ** The mapping a run builds *)

Lemma Map_set_truthy (m : Map) (k v : value) :
  truthy k = true -> truthy v = true ->
  Map_truthy m = true -> Map_truthy (Map_set m k v) = true.
Proof.
  intros Hk Hv. unfold Map_truthy.
  induction m as [|[k' v'] rest IH]; cbn [Map_set forallb fst snd].
  - intros _. now rewrite Hk, Hv.
  - intros H. apply andb_true_iff in H. destruct H as [Hkv Hrest].
    destruct (key_eqb k' k); cbn [forallb fst snd].
    + apply andb_true_iff in Hkv. destruct Hkv as [Hk' _].
      now rewrite Hk', Hv, Hrest.
    + now rewrite Hkv, IH.
Qed.

Lemma batch_loop_truthy (pages : list value) :
  forall m b : Map,
    Map_truthy m = true -> batch_loop pages m = Ok b -> Map_truthy b = true.
Proof.
  induction pages as [|page rest IH]; intros m b Hm; cbn [batch_loop].
  - intros [= <-]. exact Hm.
  - destruct (get_prop page "src") as [src|]; [|discriminate].
    destruct (truthy src) eqn:Ts; [|now apply IH].
    destruct (get_prop page "pid") as [pid|]; [|discriminate].
    destruct (truthy pid) eqn:Tp; [|now apply IH].
    apply IH. now apply Map_set_truthy.
Qed.

Lemma merge_batch_truthy (b : Map) :
  forall m : Map,
    Map_truthy m = true -> Map_truthy b = true ->
    Map_truthy (merge_batch m b) = true.
Proof.
  unfold merge_batch.
  induction b as [|[k v] rest IH]; intros m Hm Hb; cbn [fold_left fst snd].
  - exact Hm.
  - unfold Map_truthy in Hb. cbn [forallb fst snd] in Hb.
    apply andb_true_iff in Hb. destruct Hb as [Hkv Hrest].
    apply andb_true_iff in Hkv. destruct Hkv as [Hk Hv].
    apply IH; [now apply Map_set_truthy | exact Hrest].
Qed.

Lemma merge_batch_wf (b : Map) :
  forall m : Map, Map_wf m -> Map_wf (merge_batch m b).
Proof.
  unfold merge_batch.
  induction b as [|[k v] rest IH]; intros m Hm; cbn [fold_left fst snd].
  - exact Hm.
  - apply IH. now apply Map_set_wf.
Qed.

Lemma getPageBatch_truthy (env : environment) (CONFIG : config) (pid : value)
    (s : state) (b : Map) :
  fst (ApiService.getPageBatch env CONFIG pid s) = Ok b ->
  Map_truthy b = true /\ Map_wf b.
Proof.
  rewrite getPageBatch_run.
  destruct (stringifiable pid); [|discriminate]. cbn [fst].
  destruct (network env (fetches s) _) as [resp|]; [|discriminate].
  destruct (negb (ok resp)); [discriminate|].
  destruct (json resp) as [data|]; [|discriminate].
  destruct (negb (truthy (get_prop_opt data "page"))); [discriminate|].
  destruct (iterate (get_prop_opt data "page")) as [pages|]; [|discriminate].
  intros H. split.
  - apply (batch_loop_truthy pages Map_new b); [reflexivity | exact H].
  - apply (batch_loop_wf pages Map_new b); [exact I | exact H].
Qed.

Lemma Map_truthy_get (m : Map) (pid : value) :
  Map_truthy m = true -> truthy (Map_get m pid) = Map_has m pid.
Proof.
  unfold Map_truthy.
  induction m as [|[k v] rest IH]; cbn [Map_get Map_has forallb fst snd].
  - reflexivity.
  - intros H. apply andb_true_iff in H. destruct H as [Hkv Hrest].
    apply andb_true_iff in Hkv. destruct Hkv as [_ Hv].
    destruct (key_eqb k pid); [exact Hv | now apply IH].
Qed.

Lemma Map_truthy_has (m : Map) (pid : value) :
  Map_truthy m = true -> Map_has m pid = true -> truthy pid = true.
Proof.
  unfold Map_truthy.
  induction m as [|[k v] rest IH]; cbn [Map_has forallb fst snd].
  - discriminate.
  - intros H. apply andb_true_iff in H. destruct H as [Hkv Hrest].
    apply andb_true_iff in Hkv. destruct Hkv as [Hk _].
    destruct (key_eqb k pid) eqn:E; [|now apply IH].
    intros _. apply key_eqb_eq in E. now subst.
Qed.

(** ** The resolution loop, in more detail *)

Lemma resolve_loop_facts (env : environment) (CONFIG : config) (total : nat)
    (pids : list value) :
  forall (i : nat) (m : Map) (s : state) (r : result Map) (s' : state),
    resolve_loop env CONFIG total i pids m s = (r, s') ->
    exists t,
      trace s' = (trace s ++ t)%list
      /\ fetch_requests t
         = map (BatchUrl (BOOK_ID_text CONFIG)) (batch_queries t)
      /\ fetches s' = fetches s + List.length (batch_queries t)
      /\ incl (batch_queries t) pids
      /\ (exists qs tail,
             effects t = (flat_map (query_effects CONFIG) qs ++ tail)%list
             /\ batch_queries t = (qs ++ batch_queries tail)%list
             /\ (tail = []
                 \/ (is_throw r = true
                     /\ exists q,
                         tail = [Fetch (BatchUrl (BOOK_ID_text CONFIG) q)])))
      /\ (is_throw r = false ->
          effects t = flat_map (query_effects CONFIG) (batch_queries t))
      /\ (forall m',
             r = Ok m' ->
             (forall pid, In pid pids ->
                          Map_has m' pid = true \/ In pid (batch_queries t))
             /\ (Map_truthy m = true -> Map_truthy m' = true)
             /\ (Map_wf m -> Map_wf m')).
Proof.
  induction pids as [|pid rest IH]; intros i m s r s'.
  - cbn [resolve_loop]. unfold ret. intros [= <- <-]. exists [].
    rewrite app_nil_r.
    cbn [fetch_requests batch_queries map List.length effects filter
         flat_map].
    split; [reflexivity|]. split; [reflexivity|]. split; [lia|].
    split; [intros x []|].
    split; [exists [], []; cbn [flat_map batch_queries app]; auto|].
    split; [reflexivity|].
    intros m' [= <-]. split; [intros pid []|]. auto.
  - rewrite resolve_loop_cons. cbv zeta.
    destruct (Map_has m pid) eqn:Hhas.
    + intros H.
      pose proof (resolve_loop_rest _ _ _ _ _ _ _ _ _ H)
        as (t0 & Ht0 & _ & _ & _ & _ & Hmono).
      destruct (IH _ _ _ _ _ H)
        as (t & Ht & Hrq & Hf & Hincl & Heff & Heff' & Hok).
      exists t. split; [exact Ht|]. split; [exact Hrq|]. split; [exact Hf|].
      split; [now apply incl_tl|]. split; [exact Heff|].
      split; [exact Heff'|].
      intros m' Hr. destruct (Hok m' Hr) as (Hcov & Htr & Hwf).
      split; [|auto].
      intros x [<- | Hx]; [left; now apply Hmono | now apply Hcov].
    + set (info := Console_log _ _).
      set (rq := BatchUrl (BOOK_ID_text CONFIG) pid).
      destruct (fst (ApiService.getPageBatch env CONFIG pid (add_event s info)))
        as [b|e] eqn:Hbatch.
      * intros H.
        destruct (getPageBatch_truthy _ _ _ _ _ Hbatch) as [Hbt Hbw].
        destruct (IH _ _ _ _ _ H)
          as (t & Ht & Hrq & Hf & Hincl & (qs & tail & He1 & He2 & He3)
              & Heff' & Hok).
        exists (info :: Fetch rq
                :: SetTimeout (API_REQUEST_DELAY_MS CONFIG) :: t).
        subst info rq.
        cbn [fetch_requests batch_queries map List.length effects filter
             is_console_event negb].
        fold (effects t).
        split; [|split; [|split; [|split; [|split; [|split]]]]].
        -- rewrite Ht. cbn [trace add_event after_fetch].
           now rewrite <- !app_assoc.
        -- now rewrite Hrq.
        -- rewrite Hf. cbn [fetches add_event after_fetch]. lia.
        -- intros x [<- | Hx]; [now left | right; now apply Hincl].
        -- exists (pid :: qs), tail.
           rewrite He1, He2. cbn [flat_map query_effects app].
           split; [reflexivity|]. split; [reflexivity|exact He3].
        -- intros Hr. rewrite (Heff' Hr). reflexivity.
        -- intros m' Hr. destruct (Hok m' Hr) as (Hcov & Htr & Hwf).
           split; [|split].
           ++ intros x [<- | Hx]; [right; now left|].
              destruct (Hcov x Hx) as [Hx' | Hx']; [now left|].
              right. now right.
           ++ intros Hm. apply Htr. now apply merge_batch_truthy.
           ++ intros Hm. apply Hwf. now apply merge_batch_wf.
      * intros [= <- <-].
        exists (if stringifiable pid then [info; Fetch rq] else [info]).
        subst info rq.
        destruct (stringifiable pid);
          cbn [fetch_requests batch_queries map List.length effects filter
               is_console_event negb is_throw].
        -- split; [|split; [|split; [|split; [|split; [|split]]]]].
           ++ cbn [trace add_event after_fetch]. now rewrite <- app_assoc.
           ++ reflexivity.
           ++ cbn [fetches add_event after_fetch]. lia.
           ++ intros x [<- | []]. now left.
           ++ exists [], [Fetch (BatchUrl (BOOK_ID_text CONFIG) pid)].
              cbn [flat_map batch_queries app].
              split; [reflexivity|]. split; [reflexivity|].
              right. split; [reflexivity|]. now exists pid.
           ++ discriminate.
           ++ discriminate.
        -- split; [|split; [|split; [|split; [|split; [|split]]]]].
           ++ reflexivity.
           ++ reflexivity.
           ++ cbn [fetches add_event]. lia.
           ++ intros x [].
           ++ exists [], []. cbn [flat_map batch_queries app]. auto.
           ++ discriminate.
           ++ discriminate.
Qed.

(** ** Observations of the parts of a run *)

Lemma console_only (t : list event) :
  forallb is_console_event t = true ->
  fetch_requests t = [] /\ timeouts t = [] /\ saved_files t = [].
Proof.
  induction t as [|e t IH]; [auto|].
  cbn [forallb]. intros H. apply andb_true_iff in H. destruct H as [He Ht].
  destruct (IH Ht) as (H1 & H2 & H3).
  destruct e; try discriminate He;
    cbn [fetch_requests timeouts saved_files]; auto.
Qed.

Lemma summary_tail_console (failed : list string) :
  forallb is_console_event (summary_tail failed) = true.
Proof.
  unfold summary_tail. rewrite forallb_app.
  destruct (0 <? List.length failed)%nat; [|reflexivity].
  cbn [forallb is_console_event andb]. rewrite andb_true_r.
  induction failed as [|f rest IH]; [reflexivity|exact IH].
Qed.

Lemma download_trace_observed (env : environment) (CONFIG : config)
    (total : nat) (jobs : list job) :
  forall i n : nat,
    fetch_requests (download_trace env CONFIG total i n jobs)
    = map (fun j => ImageUrl (url j)) jobs
    /\ timeouts (download_trace env CONFIG total i n jobs)
       = repeat (DOWNLOAD_DELAY_MS CONFIG) (List.length jobs)
    /\ saved_files (download_trace env CONFIG total i n jobs)
       = successes env n jobs.
Proof.
  induction jobs as [|j rest IH]; intros i n; [auto|].
  destruct (IH (S i) (S n)) as (H1 & H2 & H3).
  cbn [download_trace fetch_requests timeouts saved_files map List.length
       repeat successes].
  destruct (job_fails env n j);
    cbn [fetch_requests timeouts saved_files]; rewrite H1, H2, H3; auto.
Qed.

Lemma step2_trace_observed (env : environment) (CONFIG : config)
    (allPids : list value) (m : Map) (n : nat) :
  let jobs := build_downloadJobs CONFIG allPids m in
  fetch_requests (step2_trace env CONFIG allPids m n)
  = map (fun j => ImageUrl (url j)) jobs
  /\ timeouts (step2_trace env CONFIG allPids m n)
     = repeat (DOWNLOAD_DELAY_MS CONFIG) (List.length jobs)
  /\ saved_files (step2_trace env CONFIG allPids m n) = successes env n jobs.
Proof.
  intros jobs. unfold step2_trace. fold jobs. cbv zeta.
  destruct (download_trace_observed env CONFIG (List.length jobs) jobs 0 n)
    as (H1 & H2 & H3).
  destruct (console_only _ (summary_tail_console (failures env n jobs)))
    as (T1 & T2 & T3).
  rewrite !fetch_requests_app, !timeouts_app, !saved_files_app.
  rewrite H1, H2, H3, T1, T2, T3.
  destruct (List.length jobs =? List.length allPids)%nat;
    cbn [fetch_requests timeouts saved_files app];
    rewrite !app_nil_r; auto.
Qed.

Lemma step1_facts (env : environment) (CONFIG : config) (s : state)
    (r : result (list value * Map)) (s1 : state) :
  step1 env CONFIG s = (r, s1) ->
  exists t,
    trace s1 = (trace s ++ t)%list
    /\ downloadJobs s1 = downloadJobs s
    /\ fetch_requests t
       = ManifestUrl (BOOK_ID_text CONFIG)
         :: map (BatchUrl (BOOK_ID_text CONFIG)) (batch_queries t)
    /\ fetches s1 = fetches s + 1 + List.length (batch_queries t)
    /\ saved_files t = []
    /\ (forall allPids m,
           r = Ok (allPids, m) ->
           fst (ApiService.getPageManifest env CONFIG s) = Ok allPids
           /\ allPids <> []
           /\ incl (batch_queries t) allPids
           /\ List.length (batch_queries t) <= List.length allPids
           /\ (forall pid, In pid allPids ->
                           Map_has m pid = true \/ In pid (batch_queries t))
           /\ Map_truthy m = true
           /\ Map_wf m).
Proof.
  unfold step1.
  unfold bind at 1. unfold Logger.group, emit.
  unfold bind at 1.
  assert (Hsame :
    fst (ApiService.getPageManifest env CONFIG
           (add_event s (Console_group "STEP 1: Fetching Page Links")))
    = fst (ApiService.getPageManifest env CONFIG s))
    by (rewrite !getPageManifest_run; reflexivity).
  assert (Hnonempty :
    forall pids, fst (ApiService.getPageManifest env CONFIG s) = Ok pids ->
                 pids <> []).
  { intros pids. rewrite getPageManifest_run. cbn [fst].
    destruct (network env (fetches s) _) as [resp|]; [|discriminate].
    destruct (negb (ok resp)); [discriminate|].
    destruct (json resp) as [data|]; [|discriminate].
    destruct (manifest_pids data) as [[[|p ps]|]|]; try discriminate.
    intros [= <-]. discriminate. }
  rewrite <- Hsame in Hnonempty. rewrite <- Hsame. clear Hsame.
  rewrite getPageManifest_run in *. cbn [fst fetches add_event] in *.
  set (rq := ManifestUrl (BOOK_ID_text CONFIG)) in *.
  set (group := Console_group "STEP 1: Fetching Page Links").
  match goal with |- match ?x with Ok _ => _ | Throw _ => _ end = _ -> _ =>
    remember x as rx eqn:Hrx end.
  clear Hrx. destruct rx as [allPids|e].
  - unfold bind at 1. unfold Logger.info, Logger._log, emit.
    set (info := Console_log _ _).
    unfold bind at 1.
    destruct (resolve_loop env CONFIG (List.length allPids) 0 allPids Map_new
                (add_event (after_fetch (add_event s group) rq) info))
      as [rm s2] eqn:Hloop.
    destruct (resolve_loop_rest _ _ _ _ _ _ _ _ _ Hloop)
      as (t0 & Ht0 & Hj & Hd & _ & Hn & _).
    destruct (resolve_loop_facts _ _ _ _ _ _ _ _ _ Hloop)
      as (t & Ht & Hrq & Hf & Hincl & _ & _ & Hok).
    assert (t0 = t) by (rewrite Ht in Ht0; now apply app_inv_head in Ht0).
    subst t0.
    destruct (discovery_no_retrieval t Hd) as (_ & Hsaved & _).
    cbn [trace downloadJobs fetches add_event after_fetch] in Ht, Hj, Hf.
    destruct rm as [m|e].
    + unfold bind, Logger.groupEnd, emit, ret. intros [= <- <-].
      exists (group :: Fetch rq :: info :: t ++ [Console_groupEnd])%list.
      cbn [trace downloadJobs fetches add_event]. rewrite Ht, Hj, Hf.
      subst group info rq.
      cbn [fetch_requests batch_queries saved_files].
      rewrite fetch_requests_app, batch_queries_app, saved_files_app, Hrq,
        Hsaved.
      cbn [fetch_requests batch_queries saved_files]. rewrite !app_nil_r.
      split; [|split; [reflexivity|split; [reflexivity|split; [lia|split]]]].
      * repeat (rewrite <- app_assoc; cbn [app]). reflexivity.
      * reflexivity.
      * intros allPids' m' [= <- <-].
        destruct (Hok m eq_refl) as (Hcov & Htr & Hwf).
        split; [reflexivity|]. split; [now apply Hnonempty|].
        split; [exact Hincl|]. split; [exact Hn|]. split; [exact Hcov|].
        split; [now apply Htr | now apply Hwf].
    + intros [= <- <-].
      exists (group :: Fetch rq :: info :: t)%list.
      rewrite Ht, Hj, Hf. subst group info rq.
      cbn [fetch_requests batch_queries saved_files]. rewrite Hrq, Hsaved.
      split; [|split; [reflexivity|split; [reflexivity|split; [lia|split]]]].
      * repeat (rewrite <- app_assoc; cbn [app]). reflexivity.
      * reflexivity.
      * discriminate.
  - intros [= <- <-]. exists [group; Fetch rq].
    cbn [trace downloadJobs fetches add_event after_fetch].
    subst group rq. cbn [fetch_requests batch_queries saved_files map
                         List.length].
    split; [now rewrite <- app_assoc|].
    split; [reflexivity|]. split; [reflexivity|]. split; [lia|].
    split; [reflexivity|]. discriminate.
Qed.

Lemma main_cases (env : environment) (CONFIG : config) (s : state) :
  BOOK_ID_truthy CONFIG = true ->
  (exists e s1,
      step1 env CONFIG (try_entry CONFIG s) = (Throw e, s1)
      /\ main env CONFIG s
         = (Ok tt,
            add_event s1
              (Console_error
                 "ERROR: A critical error occurred and the script had to stop."
                 (Some e))))
  \/ (exists allPids m s1,
         step1 env CONFIG (try_entry CONFIG s) = (Ok (allPids, m), s1)
         /\ main env CONFIG s = step2 env CONFIG allPids m s1).
Proof.
  intros Hid. rewrite (main_run env CONFIG s Hid).
  unfold try_catch, bind.
  destruct (step1 env CONFIG (try_entry CONFIG s)) as [[[allPids m]|e] s1].
  - right. exists allPids, m, s1. split; [reflexivity|].
    cbn [fst snd]. now rewrite step2_exact.
  - left. exists e, s1. split; reflexivity.
Qed.

Lemma main_without_id (env : environment) (CONFIG : config) (s : state) :
  BOOK_ID_truthy CONFIG = false ->
  main env CONFIG s
  = (Ok tt,
     {| downloadJobs := downloadJobs s;
        fetches := fetches s;
        trace :=
          (trace s
           ++ [Console_group "Google Books Downloader Initializing...";
               Console_log "%cINFO: Script Version: 2.1.0" "color: #03A9F4;";
               Console_log ("%cINFO: Book ID: " ++ BOOK_ID_text CONFIG)
                           "color: #03A9F4;";
               Console_log ("%cINFO: Filename Prefix: " ++ dquote
                            ++ FILENAME_PREFIX CONFIG ++ dquote)
                           "color: #03A9F4;";
               Console_error
                 "ERROR: Could not find Book ID in the URL. Please navigate to a book page."
                 None;
               Console_groupEnd])%list |}).
Proof.
  intros H. unfold main. rewrite H. cbn [negb].
  unfold bind, Logger.group, Logger.info, Logger._log, Logger.error,
    Logger.groupEnd, emit, add_event.
  cbn [downloadJobs fetches trace].
  repeat (rewrite <- app_assoc; cbn [app]). reflexivity.
Qed.

Lemma try_entry_trace (CONFIG : config) (s : state) :
  exists p,
    trace (try_entry CONFIG s) = (trace s ++ p)%list
    /\ forallb is_console_event p = true
    /\ fetches (try_entry CONFIG s) = fetches s.
Proof. eexists. split; [reflexivity|]. split; reflexivity. Qed.

Lemma main_ok (env : environment) (CONFIG : config) (s : state) :
  fst (main env CONFIG s) = Ok tt.
Proof.
  destruct (BOOK_ID_truthy CONFIG) eqn:Hid.
  - destruct (main_cases env CONFIG s Hid)
      as [(e & s1 & _ & ->) | (allPids & m & s1 & _ & ->)].
    + reflexivity.
    + now rewrite step2_exact.
  - now rewrite main_without_id.
Qed.

(** ** The orchestrator *)

(** X1: [main] never throws, whatever the page and the network do: an error
    of the manifest fetch or of a batch fetch is caught by the handler of
    line 156, an error of a download by the one of line 141. *)
Theorem main_never_throws :
  forall (env : environment) (CONFIG : config) (s : state),
    fst (main env CONFIG s) = Ok tt.
Proof. intros env CONFIG s. apply main_ok. Qed.

(** X2: without a book id in the URL (no [id] parameter, or an empty one)
    [main] reports it and returns: no request is made, no timer is set,
    nothing is saved and [downloadJobs] is not touched. *)
Theorem main_without_book_id :
  forall (env : environment) (CONFIG : config) (s : state),
    BOOK_ID_truthy CONFIG = false ->
    exists t,
      trace (snd (main env CONFIG s)) = (trace s ++ t)%list
      /\ fetch_requests t = []
      /\ timeouts t = []
      /\ saved_files t = []
      /\ In (Console_error
               "ERROR: Could not find Book ID in the URL. Please navigate to a book page."
               None) t
      /\ fetches (snd (main env CONFIG s)) = fetches s
      /\ downloadJobs (snd (main env CONFIG s)) = downloadJobs s.
Proof.
  intros env CONFIG s Hid. rewrite (main_without_id env CONFIG s Hid).
  cbn [snd trace fetches downloadJobs].
  eexists. split; [reflexivity|].
  cbn [fetch_requests timeouts saved_files In]. auto 10.
Qed.

Lemma main_without_book_id_witness :
  exists t,
    trace (snd (main env_A CONFIG_no_id initial_state)) = ([] ++ t)%list
    /\ fetch_requests t = []
    /\ timeouts t = []
    /\ saved_files t = []
    /\ In (Console_error
             "ERROR: Could not find Book ID in the URL. Please navigate to a book page."
             None) t
    /\ fetches (snd (main env_A CONFIG_no_id initial_state)) = 0
    /\ downloadJobs (snd (main env_A CONFIG_no_id initial_state)) = [].
Proof.
  exact (main_without_book_id env_A CONFIG_no_id initial_state eq_refl).
Defined.

(** X3: the requests of a run come in three phases: first the manifest
    request, then only batch requests, then only image requests, one per
    job; the run makes one request more than it queries and downloads. *)
Theorem main_fetch_order :
  forall (env : environment) (CONFIG : config) (s : state),
    BOOK_ID_truthy CONFIG = true ->
    exists t queried,
      trace (snd (main env CONFIG s)) = (trace s ++ t)%list
      /\ fetch_requests t
         = (ManifestUrl (BOOK_ID_text CONFIG)
            :: map (BatchUrl (BOOK_ID_text CONFIG)) queried
            ++ map (fun j => ImageUrl (url j))
                   (downloadJobs (snd (main env CONFIG s))))%list
      /\ fetches (snd (main env CONFIG s))
         = fetches s + 1 + List.length queried
           + List.length (downloadJobs (snd (main env CONFIG s))).
Proof.
  intros env CONFIG s Hid.
  destruct (try_entry_trace CONFIG s) as (p & Hp & Hpc & Hpf).
  destruct (console_only p Hpc) as (Hp1 & _ & _).
  destruct (main_cases env CONFIG s Hid)
    as [(e & s1 & Hstep & ->) | (allPids & m & s1 & Hstep & ->)];
    destruct (step1_facts _ _ _ _ _ Hstep)
      as (t & Ht & Hj & Hrq & Hf & _ & _).
  - exists (p ++ t ++ [Console_error
                         "ERROR: A critical error occurred and the script had to stop."
                         (Some e)])%list, (batch_queries t).
    cbn [snd trace fetches downloadJobs add_event].
    rewrite Ht, Hp, Hj, Hf, Hpf.
    rewrite !fetch_requests_app, Hp1, Hrq.
    cbn [try_entry downloadJobs fetch_requests map app List.length].
    rewrite !app_nil_r.
    split; [now rewrite <- !app_assoc|]. split; [reflexivity|lia].
  - rewrite step2_exact. cbn [snd trace fetches downloadJobs].
    destruct (step2_trace_observed env CONFIG allPids m (fetches s1))
      as (Hs2 & _ & _).
    set (t2 := step2_trace env CONFIG allPids m (fetches s1)) in *.
    exists (p ++ t ++ t2)%list, (batch_queries t).
    rewrite Ht, Hp, Hf, Hpf.
    rewrite !fetch_requests_app, Hp1, Hrq, Hs2. cbn [app].
    split; [now rewrite <- !app_assoc|]. split; [reflexivity|lia].
Qed.

Lemma main_fetch_order_witness :
  exists t queried,
    trace (snd (main env_A CONFIG_X initial_state)) = ([] ++ t)%list
    /\ fetch_requests t
       = (ManifestUrl "abc123" :: map (BatchUrl "abc123") queried
          ++ map (fun j => ImageUrl (url j))
                 (downloadJobs (snd (main env_A CONFIG_X initial_state))))%list
    /\ fetches (snd (main env_A CONFIG_X initial_state))
       = 0 + 1 + List.length queried
         + List.length (downloadJobs (snd (main env_A CONFIG_X initial_state))).
Proof.
  exact (main_fetch_order env_A CONFIG_X initial_state eq_refl).
Defined.



Lemma download_trace_effects (env : environment) (CONFIG : config)
    (total : nat) (jobs : list job) :
  forall i n : nat,
    effects (download_trace env CONFIG total i n jobs)
    = jobs_effects env CONFIG n jobs.
Proof.
  induction jobs as [|j rest IH]; intros i n; [reflexivity|].
  cbn [download_trace jobs_effects]. unfold job_effects, effects in *.
  destruct (job_fails env n j);
    cbn [filter is_console_event negb app]; now rewrite IH.
Qed.

(** X5: besides logging, the download loop does for each job, in job order:
    the request for the URL of the job, then the saving of the file when
    the job did not fail, then a delay of [DOWNLOAD_DELAY_MS].  The delay
    comes after every job, failed or not, and before the request of the
    next job; every job is exactly one request. *)
Theorem download_loop_pacing :
  forall (env : environment) (CONFIG : config) (total i : nat)
         (jobs : list job) (failed : list string) (s : state),
    exists t,
      trace (snd (download_loop env CONFIG total i jobs failed s))
      = (trace s ++ t)%list
      /\ effects t = jobs_effects env CONFIG (fetches s) jobs
      /\ fetches (snd (download_loop env CONFIG total i jobs failed s))
         = fetches s + List.length jobs.
Proof.
  intros env CONFIG total i jobs failed s.
  rewrite download_loop_exact. cbn [snd trace fetches].
  eexists. split; [reflexivity|].
  split; [apply download_trace_effects | reflexivity].
Qed.

(** ** What discovery leaves behind *)

(** X6: when step 1 ends normally, every key and every value of the URL
    mapping is truthy and no key occurs twice.  Hence the test [!url] of the
    job builder drops exactly the positions whose identifier is not a key,
    and an identifier that is falsy (a page descriptor without [pid], null,
    the empty string, 0, false) is never resolved. *)
Theorem step1_mapping_invariant :
  forall (env : environment) (CONFIG : config) (s s1 : state)
         (allPids : list value) (signedUrlMap : Map),
    step1 env CONFIG s = (Ok (allPids, signedUrlMap), s1) ->
    Map_truthy signedUrlMap = true
    /\ Map_wf signedUrlMap
    /\ (forall i,
           resolved_at allPids signedUrlMap i
           = Map_has signedUrlMap (nth i allPids VUndefined))
    /\ (forall pid, truthy pid = false -> Map_has signedUrlMap pid = false).
Proof.
  intros env CONFIG s s1 allPids m H.
  destruct (step1_facts _ _ _ _ _ H) as (t & _ & _ & _ & _ & _ & Hok).
  destruct (Hok allPids m eq_refl) as (_ & _ & _ & _ & _ & Htr & Hwf).
  split; [exact Htr|]. split; [exact Hwf|]. split.
  - intros i. unfold resolved_at. now apply Map_truthy_get.
  - intros pid Hpid. destruct (Map_has m pid) eqn:Hhas; [|reflexivity].
    pose proof (Map_truthy_has m pid Htr Hhas). congruence.
Qed.

Lemma step1_mapping_invariant_witness :
  Map_truthy [(VStr "p1", VStr "u1"); (VStr "p2", VStr "u2");
              (VStr "p3", VStr "u3")] = true
  /\ Map_wf [(VStr "p1", VStr "u1"); (VStr "p2", VStr "u2");
             (VStr "p3", VStr "u3")]
  /\ (forall i,
         resolved_at [VStr "p1"; VStr "p2"; VStr "p3"]
                     [(VStr "p1", VStr "u1"); (VStr "p2", VStr "u2");
                      (VStr "p3", VStr "u3")] i
         = Map_has [(VStr "p1", VStr "u1"); (VStr "p2", VStr "u2");
                    (VStr "p3", VStr "u3")]
                   (nth i [VStr "p1"; VStr "p2"; VStr "p3"] VUndefined))
  /\ (forall pid,
         truthy pid = false ->
         Map_has [(VStr "p1", VStr "u1"); (VStr "p2", VStr "u2");
                  (VStr "p3", VStr "u3")] pid = false).
Proof.
  exact (step1_mapping_invariant
           env_A CONFIG_X initial_state
           (snd (step1 env_A CONFIG_X initial_state))
           [VStr "p1"; VStr "p2"; VStr "p3"]
           [(VStr "p1", VStr "u1"); (VStr "p2", VStr "u2");
            (VStr "p3", VStr "u3")]
           eq_refl).
Defined.

(** X7: when step 1 ends normally, the manifest is not empty, only
    identifiers of the manifest were queried, and every identifier of the
    manifest is a key of the URL mapping or was queried: no page is left
    both unresolved and unasked for. *)
Theorem step1_covers_manifest :
  forall (env : environment) (CONFIG : config) (s s1 : state)
         (allPids : list value) (signedUrlMap : Map),
    step1 env CONFIG s = (Ok (allPids, signedUrlMap), s1) ->
    exists t,
      trace s1 = (trace s ++ t)%list
      /\ allPids <> []
      /\ incl (batch_queries t) allPids
      /\ (forall pid,
             In pid allPids ->
             Map_has signedUrlMap pid = true \/ In pid (batch_queries t)).
Proof.
  intros env CONFIG s s1 allPids m H.
  destruct (step1_facts _ _ _ _ _ H) as (t & Ht & _ & _ & _ & _ & Hok).
  destruct (Hok allPids m eq_refl) as (_ & Hne & Hincl & _ & Hcov & _).
  exists t. auto.
Qed.

Lemma step1_covers_manifest_witness :
  exists t,
    trace (snd (step1 env_no_src CONFIG_X initial_state)) = ([] ++ t)%list
    /\ [VStr "p"; VStr "p"] <> []
    /\ incl (batch_queries t) [VStr "p"; VStr "p"]
    /\ (forall pid,
           In pid [VStr "p"; VStr "p"] ->
           Map_has [] pid = true \/ In pid (batch_queries t)).
Proof.
  exact (step1_covers_manifest
           env_no_src CONFIG_X initial_state
           (snd (step1 env_no_src CONFIG_X initial_state))
           [VStr "p"; VStr "p"] [] eq_refl).
Defined.

(** ** Batches and jobs *)

Lemma get_prop_ok (page : value) (k : string) (v : value) :
  get_prop page k = Ok v -> v = get_prop_opt page k.
Proof. destruct page; cbn [get_prop get_prop_opt]; congruence. Qed.

Lemma batch_loop_keeps (post : list value) (k : value) :
  forall m b : Map,
    (forall p, In p post -> complete_entry p = true ->
               key_eqb (get_prop_opt p "pid") k = false) ->
    batch_loop post m = Ok b ->
    Map_get b k = Map_get m k.
Proof.
  induction post as [|page rest IH]; intros m b Hother; cbn [batch_loop].
  - now intros [= <-].
  - assert (Hrest : forall p, In p rest -> complete_entry p = true ->
                              key_eqb (get_prop_opt p "pid") k = false)
      by (intros p Hp; apply Hother; now right).
    specialize (Hother page (or_introl eq_refl)).
    unfold complete_entry in Hother.
    destruct (get_prop page "src") as [src|] eqn:Hsrc; [|discriminate].
    apply get_prop_ok in Hsrc. subst src.
    destruct (truthy (get_prop_opt page "src")); [|now apply IH].
    destruct (get_prop page "pid") as [pid|] eqn:Hpid; [|discriminate].
    apply get_prop_ok in Hpid. subst pid.
    destruct (truthy (get_prop_opt page "pid")); [|now apply IH].
    intros H. rewrite (IH _ _ Hrest H), Map_get_set.
    now rewrite (Hother eq_refl).
Qed.

(** X8: within one batch response the last entry for an identifier wins:
    when an entry carries the identifier [pid] (a string, a number, not an
    object) and the source URL [src], both truthy, and no later entry with
    both fields carries [pid], the mapping of the batch gives [src] for
    [pid], whatever earlier entries said. *)
Theorem batch_last_entry_wins :
  forall (pre post : list value) (props : list (string * value))
         (pid src : value) (m batchMap : Map),
    lookup_prop props "pid" = pid -> lookup_prop props "src" = src ->
    truthy pid = true -> truthy src = true -> key_eqb pid pid = true ->
    (forall p, In p post -> complete_entry p = true ->
               key_eqb (get_prop_opt p "pid") pid = false) ->
    batch_loop (pre ++ VObj props :: post)%list m = Ok batchMap ->
    Map_get batchMap pid = src /\ Map_has batchMap pid = true.
Proof.
  intros pre post props pid src m b Hpid Hsrc Tpid Tsrc Hprim Hother.
  rewrite batch_loop_app.
  destruct (batch_loop pre m) as [m1|]; [|discriminate].
  cbn [batch_loop get_prop]. rewrite Hsrc, Hpid, Tsrc, Tpid.
  intros H. split.
  - rewrite (batch_loop_keeps post pid _ _ Hother H), Map_get_set.
    now rewrite Hprim.
  - assert (Hmono : forall l m2 b2,
               batch_loop l m2 = Ok b2 -> Map_has m2 pid = true ->
               Map_has b2 pid = true).
    { induction l as [|page rest IH]; intros m2 b2; cbn [batch_loop].
      - now intros [= <-].
      - destruct (get_prop page "src") as [v|]; [|discriminate].
        destruct (truthy v); [|apply IH].
        destruct (get_prop page "pid") as [k|]; [|discriminate].
        destruct (truthy k); [|apply IH].
        intros Hb Hm2. apply (IH _ _ Hb).
        rewrite Map_has_set, Hm2. reflexivity. }
    apply (Hmono post _ _ H). rewrite Map_has_set, Hprim.
    apply orb_true_r.
Qed.

Lemma batch_last_entry_wins_witness :
  Map_get [(VStr "p1", VStr "u1b")] (VStr "p1") = VStr "u1b"
  /\ Map_has [(VStr "p1", VStr "u1b")] (VStr "p1") = true.
Proof.
  apply (batch_last_entry_wins
           [page_entry "p1" (Some "u1")] [page_entry "p1" None]
           [("pid", VStr "p1"); ("src", VStr "u1b")]
           (VStr "p1") (VStr "u1b") Map_new [(VStr "p1", VStr "u1b")]
           eq_refl eq_refl eq_refl eq_refl eq_refl).
  - intros p [<- | []]. discriminate.
  - reflexivity.
Defined.

Lemma filter_all_length {A : Type} (f : A -> bool) (l : list A) :
  (List.length (filter f l) =? List.length l)%nat = forallb f l.
Proof.
  induction l as [|x rest IH]; [reflexivity|].
  cbn [filter forallb List.length].
  destruct (f x); cbn [List.length andb].
  - exact IH.
  - pose proof (filter_length_le f rest) as Hle.
    apply Nat.eqb_neq. lia.
Qed.

(** X9: STEP 2 begins with the warning that only some URLs were resolved
    exactly when some position of the manifest has no resolved URL; the
    warning gives the number of jobs and the length of the manifest.  The
    run then goes on with the jobs there are. *)
Theorem step2_warns_when_unresolved :
  forall (env : environment) (CONFIG : config) (allPids : list value)
         (signedUrlMap : Map) (s : state),
    let jobs := build_downloadJobs CONFIG allPids signedUrlMap in
    exists t,
      trace (snd (step2 env CONFIG allPids signedUrlMap s))
      = (trace s
         ++ (if forallb (resolved_at allPids signedUrlMap)
                        (seq 0 (List.length allPids))
             then []
             else [Console_log
                     ("%cWARN: " ++ "Could only resolve URLs for "
                      ++ String_of_nat (List.length jobs) ++ " of "
                      ++ String_of_nat (List.length allPids) ++ " pages.")
                     "color: #FFC107;"])
         ++ Console_group "STEP 2: Downloading Files" :: t)%list
      /\ fetch_requests t = map (fun j => ImageUrl (url j)) jobs
      /\ downloadJobs (snd (step2 env CONFIG allPids signedUrlMap s)) = jobs.
Proof.
  intros env CONFIG allPids m s jobs.
  rewrite step2_exact. cbn [snd trace downloadJobs].
  destruct (step2_trace_observed env CONFIG allPids m (fetches s))
    as (Hrq & _ & _).
  unfold step2_trace in *. fold jobs in Hrq |- *. cbv zeta in *.
  assert (Hall : (List.length jobs =? List.length allPids)%nat
                 = forallb (resolved_at allPids m)
                           (seq 0 (List.length allPids))).
  { unfold jobs. rewrite build_downloadJobs_positions, length_map.
    rewrite <- (filter_all_length (resolved_at allPids m)
                  (seq 0 (List.length allPids))).
    now rewrite length_seq. }
  rewrite Hall in *.
  eexists. split; [reflexivity|]. split; [|reflexivity].
  rewrite !fetch_requests_app in Hrq.
  destruct (forallb (resolved_at allPids m) (seq 0 (List.length allPids)));
    cbn [fetch_requests app] in Hrq |- *;
    rewrite !fetch_requests_app; cbn [fetch_requests app]; exact Hrq.
Qed.

(** ** The filename prefix *)

Lemma string_forallb_app (p : ascii -> bool) (a b : string) :
  string_forallb p (a ++ b) = string_forallb p a && string_forallb p b.
Proof.
  induction a as [|c a IH]; [reflexivity|].
  cbn [append string_forallb]. now rewrite IH, andb_assoc.
Qed.

Lemma replace_spaces_no_space (s : string) :
  forall in_run : bool,
    string_forallb (fun c => negb (is_space c)) (replace_spaces in_run s)
    = true
    /\ String.length (replace_spaces in_run s) <= String.length s.
Proof.
  induction s as [|c rest IH]; intros in_run;
    [split; [reflexivity | cbn [replace_spaces String.length]; lia]|].
  cbn [replace_spaces String.length].
  destruct (is_space c) eqn:Hc.
  - destruct (IH true) as [H1 H2].
    destruct in_run; cbn [string_forallb String.length].
    + split; [exact H1|lia].
    + split; [exact H1|lia].
  - destruct (IH false) as [H1 H2]. cbn [string_forallb String.length].
    rewrite Hc, H1. split; [reflexivity|lia].
Qed.

Lemma remove_invalid_spec (p : ascii -> bool) (s : string) :
  string_forallb p s = true ->
  string_forallb (fun c => negb (is_invalid_char c) && p c) (remove_invalid s)
  = true
  /\ String.length (remove_invalid s) <= String.length s.
Proof.
  induction s as [|c rest IH];
    [split; [reflexivity | cbn [remove_invalid String.length]; lia]|].
  cbn [string_forallb]. intros H.
  apply andb_true_iff in H. destruct H as [Hc Hrest].
  destruct (IH Hrest) as [H1 H2].
  cbn [remove_invalid String.length].
  destruct (is_invalid_char c) eqn:Hi; cbn [string_forallb String.length].
  - split; [exact H1|lia].
  - rewrite Hi, Hc, H1. split; [reflexivity|lia].
Qed.

Lemma sanitized_clean (title : string) :
  string_forallb is_clean_char (remove_invalid (replace_spaces false title))
  = true
  /\ String.length (remove_invalid (replace_spaces false title))
     <= String.length title.
Proof.
  destruct (replace_spaces_no_space title false) as [H1 H2].
  destruct (remove_invalid_spec _ _ H1) as [H3 H4].
  split; [exact H3|lia].
Qed.

Lemma clean_fixed (p : string) :
  string_forallb is_clean_char p = true ->
  remove_invalid (replace_spaces false p) = p.
Proof.
  induction p as [|c rest IH]; [reflexivity|].
  cbn [string_forallb]. intros H.
  apply andb_true_iff in H. destruct H as [Hc Hrest].
  unfold is_clean_char in Hc. apply andb_true_iff in Hc.
  destruct Hc as [Hi Hs]. apply negb_true_iff in Hi, Hs.
  cbn [replace_spaces]. rewrite Hs. cbn [remove_invalid]. rewrite Hi.
  now rewrite (IH Hrest).
Qed.

Example getFilenamePrefix_no_break_space :
  remove_invalid
    (replace_spaces false (String "a" (String (ascii_of_nat 160) "b")))
  = "a-b".
Proof. reflexivity. Qed.

(** X10: when the page has the title element (a title of characters up to
    U+00FF), [getFilenamePrefix] returns without throwing, logging or
    reading [Logger]; the prefix holds none of the characters backslash,
    slash, colon, star, question mark, double quote, less-than, greater-than
    and bar and no white space (tab, line feed, vertical tab, form feed,
    carriage return, space, no-break space), and is not longer than the
    title. *)
Theorem getFilenamePrefix_sanitized :
  forall (env : environment) (Logger : binding) (s : state) (title : string),
    title_innerText env = Some title ->
    exists prefix,
      getFilenamePrefix env Logger s = (Ok prefix, s)
      /\ string_forallb is_clean_char prefix = true
      /\ String.length prefix <= String.length title.
Proof.
  intros env b s title H. unfold getFilenamePrefix. rewrite H.
  exists (remove_invalid (replace_spaces false title)).
  split; [reflexivity|]. apply sanitized_clean.
Qed.

Lemma getFilenamePrefix_sanitized_witness :
  exists prefix,
    getFilenamePrefix env_titled Uninitialized initial_state
    = (Ok prefix, initial_state)
    /\ string_forallb is_clean_char prefix = true
    /\ String.length prefix <= 23.
Proof.
  exact (getFilenamePrefix_sanitized env_titled Uninitialized initial_state
           "A tale: of two  cities?" eq_refl).
Defined.

(** X11: sanitizing is idempotent: a prefix that [getFilenamePrefix]
    returned for some title (of characters up to U+00FF) is returned
    unchanged when it is itself the title. *)
Theorem getFilenamePrefix_idempotent :
  forall (env env' : environment) (Logger Logger' : binding) (s s' : state)
         (title prefix : string),
    title_innerText env = Some title ->
    fst (getFilenamePrefix env Logger s) = Ok prefix ->
    title_innerText env' = Some prefix ->
    fst (getFilenamePrefix env' Logger' s') = Ok prefix.
Proof.
  intros env env' b b' s s' title prefix Ht Hp Ht'.
  unfold getFilenamePrefix in *. rewrite Ht in Hp. rewrite Ht'.
  cbn [fst ret] in *. unfold ret in *. cbn [fst] in *.
  injection Hp as <-.
  rewrite clean_fixed; [reflexivity|]. apply sanitized_clean.
Qed.

Lemma getFilenamePrefix_idempotent_witness :
  fst (getFilenamePrefix
         {| title_innerText := Some "A-tale-of-two-cities";
            location_id := None;
            network := network_A |}
         Initialized initial_state)
  = Ok "A-tale-of-two-cities".
Proof.
  exact (getFilenamePrefix_idempotent
           env_titled
           {| title_innerText := Some "A-tale-of-two-cities";
              location_id := None;
              network := network_A |}
           Uninitialized Initialized initial_state initial_state
           "A tale: of two  cities?" "A-tale-of-two-cities"
           eq_refl eq_refl eq_refl).
Defined.

Lemma digit_clean (c : ascii) : is_digit c = true -> is_clean_char c = true.
Proof.
  destruct c as [[] [] [] [] [] [] [] []]; vm_compute; congruence.
Qed.

Lemma all_digits_clean (s : string) :
  all_digits s = true -> string_forallb is_clean_char s = true.
Proof.
  induction s as [|c rest IH]; [reflexivity|].
  cbn [all_digits string_forallb]. intros H.
  apply andb_true_iff in H. destruct H as [Hc Hrest].
  now rewrite (digit_clean c Hc), IH.
Qed.

Lemma jobs_clean (CONFIG : config) (allPids : list value) (m : Map) :
  string_forallb is_clean_char (FILENAME_PREFIX CONFIG) = true ->
  Forall (fun j => string_forallb is_clean_char (filename j) = true)
         (build_downloadJobs CONFIG allPids m).
Proof.
  intros Hprefix. rewrite build_downloadJobs_positions.
  apply Forall_forall. intros j Hj. apply in_map_iff in Hj.
  destruct Hj as (i & <- & Hi). apply filter_In in Hi.
  destruct Hi as [Hi _]. apply in_seq in Hi.
  destruct (pageNumber_of_spec allPids i) as (_ & Hd & _); [lia|].
  unfold job_at. cbn [filename].
  rewrite !string_forallb_app, Hprefix, (all_digits_clean _ Hd).
  reflexivity.
Qed.

Lemma main_final_jobs (env : environment) (CONFIG : config) (s : state) :
  downloadJobs (snd (main env CONFIG s)) = downloadJobs s
  \/ downloadJobs (snd (main env CONFIG s)) = []
  \/ exists allPids m,
      downloadJobs (snd (main env CONFIG s))
      = build_downloadJobs CONFIG allPids m.
Proof.
  destruct (BOOK_ID_truthy CONFIG) eqn:Hid.
  - destruct (main_cases env CONFIG s Hid)
      as [(e & s1 & Hstep & ->) | (allPids & m & s1 & Hstep & ->)].
    + destruct (step1_facts _ _ _ _ _ Hstep) as (t & _ & Hj & _).
      right. left. cbn [snd add_event downloadJobs]. exact Hj.
    + right. right. exists allPids, m. now rewrite step2_exact.
  - left. now rewrite main_without_id.
Qed.

Lemma script_with_title (env : environment) (title : string) (s : state) :
  title_innerText env = Some title ->
  script env s
  = main env
      {| FILENAME_PREFIX := remove_invalid (replace_spaces false title);
         API_REQUEST_DELAY_MS := 50;
         DOWNLOAD_DELAY_MS := 200;
         BOOK_ID := location_id env |}
      s.
Proof.
  intros H. unfold script, getFilenamePrefix, bind, ret. now rewrite H.
Qed.

(** X12: on a page with the title element (a title of characters up to
    U+00FF), every file name the script hands to the browser is free of the
    characters that are invalid in file names and of white space: the prefix
    is sanitized, and what follows it is a hyphen, digits and [.png]. *)
Theorem script_filenames_clean :
  forall (env : environment) (title : string),
    title_innerText env = Some title ->
    Forall (fun j => string_forallb is_clean_char (filename j) = true)
           (downloadJobs (snd (script env initial_state))).
Proof.
  intros env title H. rewrite (script_with_title env title initial_state H).
  set (CONFIG := {| FILENAME_PREFIX := _; API_REQUEST_DELAY_MS := _;
                    DOWNLOAD_DELAY_MS := _; BOOK_ID := _ |}).
  destruct (main_final_jobs env CONFIG initial_state)
    as [-> | [-> | (allPids & m & ->)]]; try constructor.
  apply jobs_clean. apply sanitized_clean.
Qed.

Lemma script_filenames_clean_witness :
  map filename (downloadJobs (snd (script env_titled initial_state)))
  = ["A-tale-of-two-cities-1.png"; "A-tale-of-two-cities-2.png";
     "A-tale-of-two-cities-3.png"]
  /\ Forall (fun j => string_forallb is_clean_char (filename j) = true)
            (downloadJobs (snd (script env_titled initial_state))).
Proof.
  split; [reflexivity|].
  exact (script_filenames_clean env_titled "A tale: of two  cities?" eq_refl).
Defined.

(** X13: the script as a whole throws if and only if the page has no title
    element; with the title element it always runs [main] to its end. *)
Theorem script_throws_iff_no_title :
  forall (env : environment) (s : state),
    is_throw (fst (script env s)) = true <-> title_innerText env = None.
Proof.
  intros env s. destruct (title_innerText env) as [title|] eqn:H.
  - rewrite (script_with_title env title s H), main_ok.
    split; discriminate.
  - unfold script, getFilenamePrefix, bind. rewrite H. split; reflexivity.
Qed.

(** ** The endpoints and the jobs *)

(** X14: a call of [getPageManifest] makes exactly one request and does
    nothing else, whatever the answer, and so does a call of [getPageBatch]
    for an identifier that can be converted to a string; for an identifier
    that cannot, [getPageBatch] throws a [TypeError] and makes no request.
    A manifest that is returned is not empty, and a batch mapping that is
    returned has truthy keys and values and no key twice. *)
Theorem endpoints_one_request :
  forall (env : environment) (CONFIG : config) (pid : value) (s : state),
    snd (ApiService.getPageManifest env CONFIG s)
    = after_fetch s (ManifestUrl (BOOK_ID_text CONFIG))
    /\ (stringifiable pid = true ->
        snd (ApiService.getPageBatch env CONFIG pid s)
        = after_fetch s (BatchUrl (BOOK_ID_text CONFIG) pid))
    /\ (stringifiable pid = false ->
        ApiService.getPageBatch env CONFIG pid s = (Throw TypeError, s))
    /\ (forall pids,
           fst (ApiService.getPageManifest env CONFIG s) = Ok pids ->
           pids <> [])
    /\ (forall batchMap,
           fst (ApiService.getPageBatch env CONFIG pid s) = Ok batchMap ->
           Map_truthy batchMap = true /\ Map_wf batchMap).
Proof.
  intros env CONFIG pid s.
  split; [now rewrite getPageManifest_run|].
  split; [intros H; now rewrite getPageBatch_run, H|].
  split; [intros H; now rewrite getPageBatch_run, H|]. split.
  - intros pids. rewrite getPageManifest_run. cbn [fst].
    destruct (network env (fetches s) _) as [resp|]; [|discriminate].
    destruct (negb (ok resp)); [discriminate|].
    destruct (json resp) as [data|]; [|discriminate].
    destruct (manifest_pids data) as [[[|p ps]|]|]; try discriminate.
    intros [= <-]. discriminate.
  - intros b. apply getPageBatch_truthy.
Qed.

Lemma endpoints_one_request_witness :
  [VStr "p1"; VStr "p2"; VStr "p3"] <> []
  /\ Map_truthy [(VStr "p1", VStr "u1"); (VStr "p3", VStr "u3")] = true
  /\ snd (ApiService.getPageBatch env_three_pages CONFIG_X (VStr "p1")
                                  initial_state)
     = after_fetch initial_state (BatchUrl "abc123" (VStr "p1"))
  /\ ApiService.getPageBatch env_three_pages CONFIG_X pid_toString
                             initial_state
     = (Throw TypeError, initial_state).
Proof.
  destruct (endpoints_one_request env_three_pages CONFIG_X (VStr "p1")
              initial_state) as (_ & Hone & _ & Hm & Hb).
  destruct (endpoints_one_request env_three_pages CONFIG_X pid_toString
              initial_state) as (_ & _ & Hnone & _ & _).
  split; [exact (Hm _ eq_refl)|]. split; [exact (proj1 (Hb _ eq_refl))|].
  split; [exact (Hone eq_refl) | exact (Hnone eq_refl)].
Defined.

(** X15: every job carries a truthy URL, the one the mapping holds for the
    identifier of its position, and there are never more jobs than
    positions in the manifest. *)
Theorem jobs_have_urls :
  forall (CONFIG : config) (allPids : list value) (signedUrlMap : Map),
    List.length (build_downloadJobs CONFIG allPids signedUrlMap)
    <= List.length allPids
    /\ (forall j,
           In j (build_downloadJobs CONFIG allPids signedUrlMap) ->
           truthy (url j) = true
           /\ exists i,
               i < List.length allPids
               /\ url j = Map_get signedUrlMap (nth i allPids VUndefined)
               /\ j = job_at CONFIG allPids signedUrlMap i).
Proof.
  intros CONFIG allPids m. rewrite build_downloadJobs_positions. split.
  - rewrite length_map.
    pose proof (filter_length_le (resolved_at allPids m)
                  (seq 0 (List.length allPids))) as H.
    now rewrite length_seq in H.
  - intros j Hj. apply in_map_iff in Hj. destruct Hj as (i & <- & Hi).
    apply filter_In in Hi. destruct Hi as [Hi Hres].
    apply in_seq in Hi. split; [exact Hres|].
    exists i. split; [lia|]. split; reflexivity.
Qed.

Lemma jobs_have_urls_witness :
  truthy (VStr "u1") = true.
Proof.
  exact (proj1 (proj2 (jobs_have_urls
                         CONFIG_X [VStr "p1"; VStr "p2"; VStr "p1"]
                         [(VStr "p1", VStr "u1")])
                      {| url := VStr "u1"; filename := "X-1.png" |}
                      (or_introl eq_refl))).
Defined.

Lemma step1_request_bound (env : environment) (CONFIG : config) (s : state)
    (r : result (list value * Map)) (s1 : state) (allPids : list value) :
  step1 env CONFIG s = (r, s1) ->
  fst (ApiService.getPageManifest env CONFIG s) = Ok allPids ->
  fetches s1 <= fetches s + 1 + List.length allPids.
Proof.
  unfold step1.
  unfold bind at 1. unfold Logger.group, emit.
  unfold bind at 1.
  rewrite !getPageManifest_run. cbn [fst fetches add_event].
  match goal with |- match ?x with Ok _ => _ | Throw _ => _ end = _ -> _ =>
    remember x as rx eqn:Hrx end.
  clear Hrx. destruct rx as [pids|e]; [|discriminate 2].
  unfold bind at 1. unfold Logger.info, Logger._log, emit.
  unfold bind at 1.
  match goal with |- context [resolve_loop ?a ?b ?c ?d ?e ?f ?g] =>
    destruct (resolve_loop a b c d e f g) as [rm s2] eqn:Hloop end.
  destruct (resolve_loop_facts _ _ _ _ _ _ _ _ _ Hloop)
    as (t & Ht & _ & Hf & _).
  destruct (resolve_loop_rest _ _ _ _ _ _ _ _ _ Hloop)
    as (t0 & Ht0 & _ & _ & _ & Hn & _).
  assert (t0 = t) by (rewrite Ht in Ht0; now apply app_inv_head in Ht0).
  subst t0. cbn [fetches add_event after_fetch] in Hf.
  intros Hr [= <-].
  destruct rm as [m|e].
  - unfold bind, Logger.groupEnd, emit, ret in Hr. injection Hr as _ <-.
    cbn [fetches add_event]. lia.
  - injection Hr as _ <-. lia.
Qed.

(** X16: a run never makes more than one request for the manifest, one per
    position of the manifest for URLs and one per position for images: with
    a manifest of [N] identifiers, at most [1 + 2 N] requests. *)
Theorem main_request_bound :
  forall (env : environment) (CONFIG : config) (s : state)
         (allPids : list value),
    BOOK_ID_truthy CONFIG = true ->
    fst (ApiService.getPageManifest env CONFIG s) = Ok allPids ->
    fetches (snd (main env CONFIG s))
    <= fetches s + 1 + 2 * List.length allPids.
Proof.
  intros env CONFIG s allPids Hid Hman.
  assert (Hman' : fst (ApiService.getPageManifest env CONFIG
                         (try_entry CONFIG s)) = Ok allPids)
    by (rewrite getPageManifest_run in *; exact Hman).
  destruct (main_cases env CONFIG s Hid)
    as [(e & s1 & Hstep & ->) | (pids & m & s1 & Hstep & ->)];
    pose proof (step1_request_bound _ _ _ _ _ _ Hstep Hman') as Hb;
    cbn [try_entry fetches] in Hb.
  - cbn [snd add_event fetches]. lia.
  - destruct (step1_facts _ _ _ _ _ Hstep) as (t & _ & _ & _ & _ & _ & Hok).
    destruct (Hok pids m eq_refl) as (Hsame & _).
    assert (pids = allPids) by congruence. subst pids.
    rewrite step2_exact. cbn [snd fetches].
    rewrite build_downloadJobs_positions, length_map.
    pose proof (filter_length_le (resolved_at allPids m)
                  (seq 0 (List.length allPids))) as Hle.
    rewrite length_seq in Hle. lia.
Qed.

Lemma main_request_bound_witness :
  fetches (snd (main env_A CONFIG_X initial_state)) <= 0 + 1 + 2 * 3.
Proof.
  exact (main_request_bound env_A CONFIG_X initial_state
           [VStr "p1"; VStr "p2"; VStr "p3"] eq_refl eq_refl).
Defined.

Lemma resolve_loop_resolves (env : environment) (CONFIG : config)
    (total : nat) (pids : list value) :
  (forall s pid,
      In pid pids ->
      exists b,
        fst (ApiService.getPageBatch env CONFIG pid s) = Ok b
        /\ Map_has b pid = true) ->
  forall (i : nat) (m : Map) (s : state),
    exists m' s',
      resolve_loop env CONFIG total i pids m s = (Ok m', s')
      /\ (forall pid, In pid pids -> Map_has m' pid = true).
Proof.
  induction pids as [|pid rest IH]; intros Hans i m s.
  - exists m, s. split; [reflexivity|]. intros pid [].
  - assert (Hrest : forall s0 p, In p rest ->
                                 exists b,
                                   fst (ApiService.getPageBatch env CONFIG p s0)
                                   = Ok b /\ Map_has b p = true)
      by (intros s0 p Hp; apply Hans; now right).
    rewrite resolve_loop_cons. cbv zeta.
    destruct (Map_has m pid) eqn:Hhas.
    + destruct (IH Hrest (S i) m s) as (m' & s' & Hrun & Hall).
      exists m', s'. split; [exact Hrun|].
      intros p [<- | Hp]; [|now apply Hall].
      destruct (resolve_loop_rest _ _ _ _ _ _ _ _ _ Hrun)
        as (_ & _ & _ & _ & _ & _ & Hmono).
      now apply Hmono.
    + set (info := Console_log _ _).
      destruct (Hans (add_event s info) pid (or_introl eq_refl))
        as (b & -> & Hb).
      match goal with |- context [resolve_loop _ _ _ _ _ ?m1 ?s1] =>
        destruct (IH Hrest (S i) m1 s1) as (m' & s' & Hrun & Hall) end.
      exists m', s'. split; [exact Hrun|].
      intros p [<- | Hp]; [|now apply Hall].
      destruct (resolve_loop_rest _ _ _ _ _ _ _ _ _ Hrun)
        as (_ & _ & _ & _ & _ & _ & Hmono).
      apply Hmono; [reflexivity|].
      rewrite merge_batch_has, Hb. apply orb_true_r.
Qed.

(** X17: when the provider answers every query for an identifier of the
    manifest with a batch that resolves that identifier, the resolution loop
    ends normally with every identifier of the manifest resolved, and the
    job builder makes a job for every position. *)
Theorem resolve_loop_complete :
  forall (env : environment) (CONFIG : config) (allPids : list value)
         (s : state),
    (forall s0 pid,
        In pid allPids ->
        exists batchMap,
          fst (ApiService.getPageBatch env CONFIG pid s0) = Ok batchMap
          /\ Map_has batchMap pid = true) ->
    exists signedUrlMap s',
      resolve_loop env CONFIG (List.length allPids) 0 allPids Map_new s
      = (Ok signedUrlMap, s')
      /\ (forall pid, In pid allPids -> Map_has signedUrlMap pid = true)
      /\ List.length (build_downloadJobs CONFIG allPids signedUrlMap)
         = List.length allPids.
Proof.
  intros env CONFIG allPids s Hans.
  destruct (resolve_loop_resolves env CONFIG (List.length allPids) allPids
              Hans 0 Map_new s) as (m & s' & Hrun & Hall).
  exists m, s'. split; [exact Hrun|]. split; [exact Hall|].
  destruct (resolve_loop_facts _ _ _ _ _ _ _ _ _ Hrun)
    as (t & _ & _ & _ & _ & _ & _ & Hok).
  destruct (Hok m eq_refl) as (_ & Htr & _). specialize (Htr eq_refl).
  rewrite build_downloadJobs_positions, length_map.
  assert (Hforall : forallb (resolved_at allPids m)
                            (seq 0 (List.length allPids)) = true).
  { apply forallb_forall. intros i Hi. apply in_seq in Hi.
    unfold resolved_at. rewrite (Map_truthy_get m _ Htr).
    apply Hall. apply nth_In. lia. }
  rewrite <- filter_all_length in Hforall.
  apply Nat.eqb_eq in Hforall. now rewrite length_seq in Hforall.
Qed.

Lemma resolve_loop_complete_witness :
  exists signedUrlMap s',
    resolve_loop env_three_pages CONFIG_X 2 0 [VStr "p1"; VStr "p3"] Map_new
                 initial_state
    = (Ok signedUrlMap, s')
    /\ (forall pid, In pid [VStr "p1"; VStr "p3"] ->
                    Map_has signedUrlMap pid = true)
    /\ List.length (build_downloadJobs CONFIG_X [VStr "p1"; VStr "p3"]
                                       signedUrlMap)
       = 2.
Proof.
  apply (resolve_loop_complete env_three_pages CONFIG_X
           [VStr "p1"; VStr "p3"] initial_state).
  intros s0 pid [<- | [<- | []]];
    (exists [(VStr "p1", VStr "u1"); (VStr "p3", VStr "u3")]);
    split; reflexivity.
Defined.

(** X18: [downloadFile] makes exactly one request, for the URL of the job;
    it hands the file to the browser, once and under the file name of the
    job, exactly when the request is answered with an OK status and a
    readable body, and throws without saving anything otherwise. *)
Theorem downloadFile_saves_iff_ok :
  forall (env : environment) (j : job) (s : state),
    exists t,
      trace (snd (DownloaderService.downloadFile env j s))
      = (trace s ++ t)%list
      /\ fetch_requests t = [ImageUrl (url j)]
      /\ saved_files t
         = (if is_throw (fst (DownloaderService.downloadFile env j s))
            then [] else [filename j])
      /\ (is_throw (fst (DownloaderService.downloadFile env j s)) = false
          <-> exists resp,
              network env (fetches s) (ImageUrl (url j)) = Some resp
              /\ ok resp = true /\ blob resp = true).
Proof.
  intros env j s. rewrite downloadFile_run. unfold job_fails.
  destruct (network env (fetches s) (ImageUrl (url j))) as [resp|].
  - destruct (ok resp) eqn:Hok; destruct (blob resp) eqn:Hblob;
      cbn [negb orb fst snd is_throw trace add_event after_fetch].
    + exists [Fetch (ImageUrl (url j)); AnchorClick (filename j)].
      rewrite <- app_assoc. split; [reflexivity|].
      split; [reflexivity|]. split; [reflexivity|].
      split; [intros _; exists resp; auto | reflexivity].
    + exists [Fetch (ImageUrl (url j))].
      split; [reflexivity|]. split; [reflexivity|]. split; [reflexivity|].
      split; [discriminate|].
      intros (resp' & [= <-] & _ & H). congruence.
    + exists [Fetch (ImageUrl (url j))].
      split; [reflexivity|]. split; [reflexivity|]. split; [reflexivity|].
      split; [discriminate|].
      intros (resp' & [= <-] & H & _). congruence.
    + exists [Fetch (ImageUrl (url j))].
      split; [reflexivity|]. split; [reflexivity|]. split; [reflexivity|].
      split; [discriminate|].
      intros (resp' & [= <-] & H & _). congruence.
  - cbn [fst snd is_throw trace after_fetch].
    exists [Fetch (ImageUrl (url j))].
    split; [reflexivity|]. split; [reflexivity|]. split; [reflexivity|].
    split; [discriminate|]. intros (resp' & H & _). discriminate.
Qed.

Lemma replace_spaces_word (w : string) :
  string_forallb is_clean_char w = true ->
  forall (in_run : bool) (r : string),
    replace_spaces in_run (w ++ r)
    = w ++ replace_spaces
             (match w with EmptyString => in_run | _ => false end) r.
Proof.
  induction w as [|c rest IH]; intros H in_run r; [reflexivity|].
  cbn [string_forallb] in H. apply andb_true_iff in H.
  destruct H as [Hc Hrest].
  unfold is_clean_char in Hc.
  apply andb_true_iff in Hc. destruct Hc as [_ Hs].
  apply negb_true_iff in Hs.
  cbn [append replace_spaces]. rewrite Hs, (IH Hrest false r).
  destruct rest; reflexivity.
Qed.

Lemma replace_spaces_run (ws : string) :
  string_forallb is_space ws = true ->
  forall r : string, replace_spaces true (ws ++ r) = replace_spaces true r.
Proof.
  induction ws as [|c rest IH]; intros H r; [reflexivity|].
  cbn [string_forallb] in H. apply andb_true_iff in H.
  destruct H as [Hc Hrest].
  cbn [append replace_spaces]. rewrite Hc. now apply IH.
Qed.

Lemma remove_invalid_plain (w : string) :
  string_forallb is_clean_char w = true ->
  forall r : string, remove_invalid (w ++ r) = w ++ remove_invalid r.
Proof.
  induction w as [|c rest IH]; intros H r; [reflexivity|].
  cbn [string_forallb] in H. apply andb_true_iff in H.
  destruct H as [Hc Hrest].
  unfold is_clean_char in Hc.
  apply andb_true_iff in Hc. destruct Hc as [Hi _].
  apply negb_true_iff in Hi.
  cbn [append remove_invalid]. rewrite Hi. now rewrite (IH Hrest).
Qed.

Lemma string_app_nil (x : string) : x ++ EmptyString = x.
Proof. induction x; cbn [append]; congruence. Qed.

Lemma replace_spaces_plain (w : string) (in_run : bool) :
  string_forallb is_clean_char w = true -> replace_spaces in_run w = w.
Proof.
  intros H. pose proof (replace_spaces_word w H in_run EmptyString) as E.
  rewrite string_app_nil in E. cbn [replace_spaces] in E.
  now rewrite string_app_nil in E.
Qed.

Lemma remove_invalid_plain_id (w : string) :
  string_forallb is_clean_char w = true -> remove_invalid w = w.
Proof.
  intros H. pose proof (remove_invalid_plain w H EmptyString) as E.
  rewrite string_app_nil in E. cbn [remove_invalid] in E.
  now rewrite string_app_nil in E.
Qed.

(** X19: a run of white space between two words becomes one hyphen: for a
    title, of characters up to U+00FF, made of a word, one or more white
    space characters and a word, the words holding neither white space nor
    a character that is invalid in a file name, the prefix is the first
    word, a hyphen and the second word. *)
Theorem getFilenamePrefix_joins_words :
  forall (env : environment) (Logger : binding) (s : state)
         (w1 w2 : string) (c : ascii) (ws : string),
    string_forallb is_clean_char w1 = true ->
    string_forallb is_clean_char w2 = true ->
    is_space c = true -> string_forallb is_space ws = true ->
    title_innerText env = Some (w1 ++ String c ws ++ w2) ->
    getFilenamePrefix env Logger s = (Ok (w1 ++ "-" ++ w2), s).
Proof.
  intros env b s w1 w2 c ws H1 H2 Hc Hws Ht.
  unfold getFilenamePrefix. rewrite Ht. unfold ret. do 2 f_equal.
  rewrite (replace_spaces_word w1 H1 false).
  assert (Hjoin : replace_spaces
                    (match w1 with EmptyString => false | _ => false end)
                    (String c ws ++ w2) = "-" ++ w2).
  { replace (match w1 with EmptyString => false | _ => false end)
      with false by (destruct w1; reflexivity).
    cbn [append replace_spaces]. rewrite Hc.
    rewrite (replace_spaces_run ws Hws w2).
    now rewrite (replace_spaces_plain w2 true H2). }
  rewrite Hjoin, (remove_invalid_plain w1 H1).
  cbn [append remove_invalid].
  replace (is_invalid_char "-") with false by reflexivity.
  now rewrite (remove_invalid_plain_id w2 H2).
Qed.

Lemma getFilenamePrefix_joins_words_witness :
  getFilenamePrefix
    {| title_innerText := Some "Moby  Dick";
       location_id := None;
       network := network_A |}
    Uninitialized initial_state
  = (Ok "Moby-Dick", initial_state).
Proof.
  exact (getFilenamePrefix_joins_words
           {| title_innerText := Some "Moby  Dick";
              location_id := None;
              network := network_A |}
           Uninitialized initial_state "Moby" "Dick" " " " "
           eq_refl eq_refl eq_refl eq_refl eq_refl).
Defined.
